(** * lens-selector: the discovery, validation and enhancement pipeline

    A shallow embedding of [src/utils/lensValidator.js] (the current
    revision, the one with the [exact]/[fallback] enhance maps) and the
    properties of its validator, its missing-payload predicate and its
    discovery loop.

    JavaScript values are a tree datatype, exceptions are an explicit
    [result], the objects used as dictionaries are finite maps, and the
    services of the host ([fs], [path], [JSON.parse]) are a record of
    functions the pipeline is parameterised by.  Numbers are rationals
    (the program only tests them against [0] and [1]); texts are byte
    strings, a file being read and encoded as UTF-8.  Log lines are left
    out, except where building one can throw. *)

From Stdlib Require Import String Ascii ZArith QArith.
From stdpp Require Import gmap strings list.

Set Warnings "-register-all".

Local Open Scope string_scope.
Local Open Scope list_scope.

(** ** Exceptions *)

Inductive error := TypeError | SyntaxError | IOError.

Inductive result (A : Type) :=
| Ok (a : A)
| Throw (e : error).
Arguments Ok {A} a.
Arguments Throw {A} e.

Definition bind {A B} (r : result A) (k : A -> result B) : result B :=
  match r with
  | Ok a => k a
  | Throw e => Throw e
  end.

Notation "x <- e ;; k" := (bind e (fun x => k))
  (at level 100, e at next level, right associativity).

(** [try { r } catch (e) { h }] where the handler yields a value. *)
Definition try_catch {A} (r : result A) (h : error -> A) : A :=
  match r with
  | Ok a => a
  | Throw e => h e
  end.

Definition throws {A} (r : result A) : bool :=
  match r with
  | Ok _ => false
  | Throw _ => true
  end.

(** ** JavaScript values

    What [JSON.parse] builds, plus [undefined] (the result of reading an
    absent property) and own named properties on arrays (the splice step
    can create one).  Objects are association lists in insertion order;
    the first binding of a key is the live one. *)

Inductive value :=
| VUndefined
| VNull
| VBool (b : bool)
| VNum (n : Q)
| VStr (s : string)
| VArr (items : list value) (props : list (string * value))
| VObj (fields : list (string * value)).

Fixpoint own (k : string) (fields : list (string * value)) : option value :=
  match fields with
  | [] => None
  | (k', v) :: rest => if String.eqb k' k then Some v else own k rest
  end.

Fixpoint define (k : string) (x : value) (fields : list (string * value))
  : list (string * value) :=
  match fields with
  | [] => [(k, x)]
  | (k', v) :: rest =>
      if String.eqb k' k then (k', x) :: rest else (k', v) :: define k x rest
  end.

(** [!v] is [negb (truthy v)]. *)
Definition truthy (v : value) : bool :=
  match v with
  | VUndefined | VNull => false
  | VBool b => b
  | VNum n => negb (Qeq_bool n 0)
  | VStr s => negb (String.eqb s EmptyString)
  | VArr _ _ | VObj _ => true
  end.

Definition typeof (v : value) : string :=
  match v with
  | VUndefined => "undefined"
  | VNull | VArr _ _ | VObj _ => "object"
  | VBool _ => "boolean"
  | VNum _ => "number"
  | VStr _ => "string"
  end.

Definition isArray (v : value) : bool :=
  match v with
  | VArr _ _ => true
  | _ => false
  end.

(** The elements an array iterates over. *)
Definition items_of (v : value) : list value :=
  match v with
  | VArr items _ => items
  | _ => []
  end.

Definition number_of_nat (n : nat) : value := VNum (inject_Z (Z.of_nat n)).
Arguments number_of_nat : simpl never.

(** [v === q] for a number literal [q]. *)
Definition strict_eq_number (v : value) (q : Q) : bool :=
  match v with
  | VNum n => Qeq_bool n q
  | _ => false
  end.

(** [v > 0] for a numeric [v] (the program compares string lengths only). *)
Definition gt_zero (v : value) : bool :=
  match v with
  | VNum n => negb (Qle_bool n 0)
  | _ => false
  end.

(** [v === s] and [v !== s] for a string literal [s]. *)
Definition strict_eq_string (v : value) (s : string) : bool :=
  match v with
  | VStr s' => String.eqb s' s
  | _ => false
  end.

(** Canonical array indices: ["0"], ["1"], ["42"], not ["01"]. *)
Definition digit_of (a : ascii) : option nat :=
  let n := nat_of_ascii a in
  if (48 <=? n)%nat && (n <=? 57)%nat then Some (n - 48)%nat else None.

Fixpoint parse_digits (s : string) (acc : nat) : option nat :=
  match s with
  | EmptyString => Some acc
  | String a rest =>
      match digit_of a with
      | Some d => parse_digits rest (10 * acc + d)%nat
      | None => None
      end
  end.

Definition array_index (k : string) : option nat :=
  match k with
  | EmptyString => None
  | String a rest =>
      if Ascii.eqb a "0"%char
      then (if String.eqb rest EmptyString then Some 0%nat else None)
      else parse_digits k 0
  end.

(** Property read [v.k] / [v[k]].  Reading from [undefined] or [null]
    throws; a primitive has no own named property; a string answers
    [length] and its indices; an array answers [length], its indices and
    its own named properties.  Members inherited from the built-in
    prototypes ([toString], [push], ...) are not data and are not
    answered here: the program reads none of them as a value. *)
Definition get (v : value) (k : string) : result value :=
  match v with
  | VUndefined | VNull => Throw TypeError
  | VBool _ | VNum _ => Ok VUndefined
  | VStr s =>
      if String.eqb k "length" then Ok (number_of_nat (String.length s))
      else match array_index k with
           | Some i =>
               match String.get i s with
               | Some c => Ok (VStr (String c EmptyString))
               | None => Ok VUndefined
               end
           | None => Ok VUndefined
           end
  | VArr items props =>
      if String.eqb k "length" then Ok (number_of_nat (length items))
      else match array_index k with
           | Some i => Ok (nth i items VUndefined)
           | None => Ok (default VUndefined (own k props))
           end
  | VObj fields => Ok (default VUndefined (own k fields))
  end.

(** Property write [target.k = x] for a name [k] that is neither an index
    nor [length] (the program writes [content] and [data] only); the
    result is the target after the write.  The module is not in strict
    mode: a write to a primitive is dropped silently. *)
Definition set_prop (target : value) (k : string) (x : value) : result value :=
  match target with
  | VUndefined | VNull => Throw TypeError
  | VBool _ | VNum _ | VStr _ => Ok target
  | VArr items props => Ok (VArr items (define k x props))
  | VObj fields => Ok (VObj (define k x fields))
  end.

(** [s.includes(p)] *)
Fixpoint includes (s p : string) : bool :=
  String.prefix p s ||
  match s with
  | EmptyString => false
  | String _ rest => includes rest p
  end.

(** ** The profile validator: [validateFHIRLens] *)

Record validation := { isValid : bool; errors : list string }.

Definition msg_object := "Lens must be a JSON object".
Definition dquote : string := String (ascii_of_nat 34) EmptyString.
Definition msg_resourceType :=
  "resourceType must be " +:+ dquote +:+ "Library" +:+ dquote.
Definition msg_url := "url is required and must be a string".
Definition msg_name := "name is required and must be a string".
Definition msg_status := "status is required and must be a string".
Definition msg_content_array := "content must be an array".
Definition msg_content_data :=
  "content must include at least one item with base64 encoded data".

(** The [for (const item of lens.content)] loop with its [break]. *)
Fixpoint hasBase64Content (items : list value) : result bool :=
  match items with
  | [] => Ok false
  | item :: rest =>
      data <- get item "data" ;;
      if truthy data && String.eqb (typeof data) "string"
      then Ok true
      else hasBase64Content rest
  end.

(** [!x || typeof x !== 'string'] *)
Definition not_a_string (x : value) : bool :=
  negb (truthy x) || negb (String.eqb (typeof x) "string").

Definition push_if (c : bool) (m : string) (errs : list string) : list string :=
  if c then errs ++ [m] else errs.

Definition validateFHIRLens (lens : value) : result validation :=
  if negb (truthy lens) || negb (String.eqb (typeof lens) "object")
  then Ok {| isValid := false; errors := [msg_object] |}
  else
    resourceType <- get lens "resourceType" ;;
    let errs := push_if (negb (strict_eq_string resourceType "Library"))
                        msg_resourceType [] in
    url <- get lens "url" ;;
    let errs := push_if (not_a_string url) msg_url errs in
    name <- get lens "name" ;;
    let errs := push_if (not_a_string name) msg_name errs in
    status <- get lens "status" ;;
    let errs := push_if (not_a_string status) msg_status errs in
    content <- get lens "content" ;;
    errs <- (if negb (isArray content)
             then Ok (errs ++ [msg_content_array])
             else
               found <- hasBase64Content (items_of content) ;;
               Ok (push_if (negb found) msg_content_data errs)) ;;
    Ok {| isValid := Nat.eqb (length errs) 0; errors := errs |}.

(** ** The missing-payload predicate: [isLensMissingBase64Content] *)

(** [c && typeof c.data === 'string' && c.data.length > 0] *)
Definition has_data (c : value) : result bool :=
  if negb (truthy c) then Ok false
  else
    data <- get c "data" ;;
    if negb (String.eqb (typeof data) "string") then Ok false
    else
      len <- get data "length" ;;
      Ok (gt_zero len).

(** [items.some(c => ...)]: stops at the first hit. *)
Fixpoint some_has_data (items : list value) : result bool :=
  match items with
  | [] => Ok false
  | c :: rest =>
      hit <- has_data c ;;
      if hit then Ok true else some_has_data rest
  end.

(** [content.some(...)]: an own property named [some] would shadow the
    method with a value that cannot be called. *)
Definition some_data (content : value) : result bool :=
  match content with
  | VArr items props =>
      match own "some" props with
      | Some _ => Throw TypeError
      | None => some_has_data items
      end
  | _ => Throw TypeError
  end.

Definition isLensMissingBase64Content (jsonData : value) : result bool :=
  content <- get jsonData "content" ;;
  if negb (truthy content) || negb (isArray content) then Ok true
  else
    len <- get content "length" ;;
    if strict_eq_number len 0 then Ok true
    else if strict_eq_number len 1 then
      item <- get content "0" ;;
      if negb (truthy item) then Ok true
      else
        data <- get item "data" ;;
        if negb (String.eqb (typeof data) "string") then Ok true
        else
          dlen <- get data "length" ;;
          if strict_eq_number dlen 0 then Ok true else Ok false
    else
      hasAnyData <- some_data content ;;
      Ok (negb hasAnyData).

(** ** Base64: [Buffer.from(text).toString('base64')] and its inverse

    File texts are byte strings (UTF-8); three bytes make four digits,
    and a final group of one or two bytes is padded with [=]. *)

Definition base64_alphabet : string :=
  "ABCDEFGHIJKLMNOPQRSTUVWXYZabcdefghijklmnopqrstuvwxyz0123456789+/".

Definition pad : ascii := "="%char.

Definition base64_digit (n : nat) : ascii :=
  match String.get n base64_alphabet with
  | Some c => c
  | None => pad
  end.

Fixpoint base64_encode (s : string) : string :=
  match s with
  | EmptyString => EmptyString
  | String a EmptyString =>
      let x := nat_of_ascii a in
      String (base64_digit (x / 4))
        (String (base64_digit (x mod 4 * 16))
           (String pad (String pad EmptyString)))
  | String a (String b EmptyString) =>
      let x := nat_of_ascii a in
      let y := nat_of_ascii b in
      String (base64_digit (x / 4))
        (String (base64_digit (x mod 4 * 16 + y / 16))
           (String (base64_digit (y mod 16 * 4))
              (String pad EmptyString)))
  | String a (String b (String c rest)) =>
      let x := nat_of_ascii a in
      let y := nat_of_ascii b in
      let z := nat_of_ascii c in
      String (base64_digit (x / 4))
        (String (base64_digit (x mod 4 * 16 + y / 16))
           (String (base64_digit (y mod 16 * 4 + z / 64))
              (String (base64_digit (z mod 64))
                 (base64_encode rest))))
  end.

Fixpoint index_in (c : ascii) (s : string) (i : nat) : option nat :=
  match s with
  | EmptyString => None
  | String c' rest => if Ascii.eqb c' c then Some i else index_in c rest (S i)
  end.

Definition base64_value (c : ascii) : option nat := index_in c base64_alphabet 0.

(** Decoding of a padded, well-formed text; [None] on anything else. *)
Fixpoint base64_decode (s : string) : option string :=
  match s with
  | EmptyString => Some EmptyString
  | String a (String b (String c (String d rest))) =>
      match base64_value a, base64_value b with
      | Some x, Some y =>
          let b1 := ascii_of_nat (x * 4 + y / 16) in
          match base64_value c, base64_value d, rest with
          | Some z, Some w, _ =>
              let b2 := ascii_of_nat (y mod 16 * 16 + z / 4) in
              let b3 := ascii_of_nat (z mod 4 * 64 + w) in
              match base64_decode rest with
              | Some t => Some (String b1 (String b2 (String b3 t)))
              | None => None
              end
          | Some z, None, EmptyString =>
              if Ascii.eqb d pad
              then Some (String b1
                           (String (ascii_of_nat (y mod 16 * 16 + z / 4))
                              EmptyString))
              else None
          | None, None, EmptyString =>
              if Ascii.eqb c pad && Ascii.eqb d pad
              then Some (String b1 EmptyString)
              else None
          | _, _, _ => None
          end
      | _, _ => None
      end
  | _ => None
  end.

(** ** Template literals: [`${v}`]

    Interpolating an object calls its [toString]; a parsed document can
    bind [toString] to data, which cannot be called, and then the
    conversion throws.  An array joins the conversions of its elements,
    skipping [null] and [undefined]. *)
Fixpoint interpolation_throws (v : value) : bool :=
  match v with
  | VObj fields =>
      match own "toString" fields with
      | Some _ => true
      | None => false
      end
  | VArr items props =>
      match own "toString" props with
      | Some _ => true
      | None =>
          match own "join" props with
          | Some _ => false
          | None => existsb interpolation_throws items
          end
      end
  | _ => false
  end.

Definition interpolate (v : value) : result unit :=
  if interpolation_throws v then Throw TypeError else Ok tt.

(** ** The host: file system, [path], [JSON.parse]

    The directory structure under the scanned root is a tree: what
    [readdirSync] lists and what [statSync] answers for each entry.
    [readdirSync] answers for a [Dir] and throws for anything else (a
    file, a missing path, a directory that cannot be listed); [statSync]
    throws for [Unstatable] (a dangling link, say).  File texts are read
    by path, and the file system does not change during a call. *)

Inductive node :=
| File
| Dir (entries : list (string * node))
| Unlistable
| Unstatable.

(** [fs.statSync(p).isDirectory()] *)
Definition isDirectory (n : node) : result bool :=
  match n with
  | File => Ok false
  | Dir _ | Unlistable => Ok true
  | Unstatable => Throw IOError
  end.

Record host := {
  readFileSync : string -> result string;
  JSON_parse : string -> result value;
  path_join : string -> string -> string;
  path_extname : string -> string;
  path_basename : string -> string -> string;
  path_dirname : string -> string
}.

(** A [for (const x of xs)] loop over a state, leaving at the first throw. *)
Definition for_each {A S} (body : A -> S -> result S) : list A -> S -> result S :=
  fix go (xs : list A) (s : S) : result S :=
    match xs with
    | [] => Ok s
    | x :: rest => s' <- body x s ;; go rest s'
    end.

(** ** The scanner: [findJsonFiles] and [findEnhanceFiles] *)

Fixpoint traverseJson (h : host) (currentDir : string) (n : node)
    (jsonFiles : list string) {struct n} : result (list string) :=
  match n with
  | Dir files =>
      for_each
        (fun (entry : string * node) (jsonFiles : list string) =>
           let file := entry.1 in
           let filePath := path_join h currentDir file in
           isDir <- isDirectory entry.2 ;;
           if isDir then traverseJson h filePath entry.2 jsonFiles
           else if String.eqb (path_extname h file) ".json"
                then Ok (jsonFiles ++ [filePath])
                else Ok jsonFiles)
        files jsonFiles
  | _ => Throw IOError
  end.

Definition findJsonFiles (h : host) (tree : node) (dir : string)
  : result (list string) :=
  traverseJson h dir tree [].

(** The two dictionaries [findEnhanceFiles] fills, keyed by paths: [exact]
    by the path of the document a script would belong to, [fallback] by
    directory. *)
Record enhance_index := {
  exact : gmap string string;
  fallback : gmap string (list string)
}.

(** The four markers, as the string literals evaluate: in a quoted
    literal the escape [\s] is the letter [s], so ['function\s+enhance']
    is the text [functions+enhance]; [includes] looks for the text
    itself. *)
Definition marker_function := "functions+enhance".
Definition marker_const := "consts+enhance".
Definition marker_export := "export.*enhance".
Definition marker_let := "lets+enhances+=.*()".

Definition hasEnhance (content : string) : bool :=
  includes content marker_function
  || includes content marker_const
  || includes content marker_export
  || includes content marker_let.

(** One [.js] entry of the loop of [traverse]: the [try] block and its
    empty [catch]. *)
Definition scanScript (h : host) (currentDir file filePath : string)
    (st : enhance_index * list string) : enhance_index * list string :=
  try_catch
    (content <- readFileSync h filePath ;;
     if hasEnhance content then
       let baseName := path_basename h file ".js" in
       let jsonFilePath := path_join h currentDir (baseName +:+ ".json") in
       Ok ({| exact := <[jsonFilePath := filePath]> (exact st.1);
              fallback := fallback st.1 |},
           st.2 ++ [filePath])
     else Ok st)
    (fun _ => st).

Fixpoint traverseEnhance (h : host) (currentDir : string) (n : node)
    (enhanceFiles : enhance_index) {struct n} : result enhance_index :=
  match n with
  | Dir files =>
      st <- for_each
              (fun (entry : string * node) (st : enhance_index * list string) =>
                 let file := entry.1 in
                 let filePath := path_join h currentDir file in
                 isDir <- isDirectory entry.2 ;;
                 if isDir then
                   enhanceFiles <- traverseEnhance h filePath entry.2 st.1 ;;
                   Ok (enhanceFiles, st.2)
                 else if String.eqb (path_extname h file) ".js"
                      then Ok (scanScript h currentDir file filePath st)
                      else Ok st)
              files (enhanceFiles, []) ;;
      let jsFilesInDir := st.2 in
      if (0 <? length jsFilesInDir)%nat
      then Ok {| exact := exact st.1;
                 fallback := <[currentDir := jsFilesInDir]> (fallback st.1) |}
      else Ok st.1
  | _ => Throw IOError
  end.

Definition findEnhanceFiles (h : host) (tree : node) (dir : string)
  : result enhance_index :=
  traverseEnhance h dir tree {| exact := ∅; fallback := ∅ |}.

(** ** The payload synthesizer *)

Definition jsToBase64 (h : host) (filePath : string) : result string :=
  content <- readFileSync h filePath ;;
  Ok (base64_encode content).

Definition newline : string := String (ascii_of_nat 10) EmptyString.

Definition defaultEnhance : string :=
  "function enhance(originalContent) {" +:+ newline +:+
  "    console.log('Not Enhancing');" +:+ newline +:+
  "    return originalContent;" +:+ newline +:+
  "}".

Definition getDefaultEnhanceBase64 : string := base64_encode defaultEnhance.

(** ** The pipeline: [discoverLenses] *)

Record lensEntry := {
  lens_id : value;
  lens_name : value;
  lens_url : value;
  lens_version : value;
  lens_status : value;
  lens_path : string;
  hasBase64 : bool;
  enhancedWithJs : option string;
  enhanceSource : option string;
  lens : value
}.

(** [if (enhanceFile)] on a path that may be [undefined] or [null]. *)
Definition path_truthy (p : option string) : bool :=
  match p with
  | Some s => negb (String.eqb s EmptyString)
  | None => false
  end.

(** The object literal pushed onto [validLenses]; [enhancedWithJs] is set
    only for a truthy [enhanceFile]. *)
Definition makeEntry (jsonData : value) (filePath : string)
    (enhanceFile enhanceSource : option string) : result lensEntry :=
  id <- get jsonData "id" ;;
  name <- get jsonData "name" ;;
  url <- get jsonData "url" ;;
  version <- get jsonData "version" ;;
  status <- get jsonData "status" ;;
  Ok {| lens_id := id;
        lens_name := name;
        lens_url := url;
        lens_version := if truthy version then version else VStr "unknown";
        lens_status := status;
        lens_path := filePath;
        hasBase64 := true;
        enhancedWithJs := if path_truthy enhanceFile then enhanceFile else None;
        enhanceSource := enhanceSource;
        lens := jsonData |}.

(** Resolution of the payload, from the lookup of the exact match to the
    choice of [base64Content]: the payload, the script kept in
    [enhanceFile] and the provenance in [enhanceSource]. *)
Definition resolveEnhance (h : host) (enhanceFiles : enhance_index)
    (filePath : string) : string * option string * string :=
  let enhanceFile := exact enhanceFiles !! filePath in
  let enhanceSource := "exact-match" in
  let chosen :=
    if negb (path_truthy enhanceFile) then
      let fileDir := path_dirname h filePath in
      match fallback enhanceFiles !! fileDir with
      | Some fallbackFiles =>
          if (0 <? length fallbackFiles)%nat
          then (head fallbackFiles, "fallback")
          else (enhanceFile, enhanceSource)
      | None => (enhanceFile, enhanceSource)
      end
    else (enhanceFile, enhanceSource) in
  let enhanceFile := chosen.1 in
  let enhanceSource := chosen.2 in
  if path_truthy enhanceFile then
    match jsToBase64 h (default EmptyString enhanceFile) with
    | Ok base64Content => (base64Content, enhanceFile, enhanceSource)
    | Throw _ => (getDefaultEnhanceBase64, None, "default")
    end
  else (getDefaultEnhanceBase64, enhanceFile, "default").

(** [content.push({})]: defined on arrays; anything else has no callable
    [push]. *)
Definition push (content : value) (x : value) : result value :=
  match content with
  | VArr items props =>
      match own "push" props with
      | Some _ => Throw TypeError
      | None => Ok (VArr (items ++ [x]) props)
      end
  | _ => Throw TypeError
  end.

(** [content[0]] is shared with [content], and [content] with
    [jsonData]: a write through the element is seen through the
    containers.  On the tree the written element is stored back at index
    0; a primitive element is a copy and stores back as itself, and a
    primitive [content] has no element to hold. *)
Definition store_first (content : value) (first : value) : value :=
  match content with
  | VArr items props => VArr (<[0%nat := first]> items) props
  | VObj fields => VObj (define "0" first fields)
  | _ => content
  end.

(** The splice, statement by statement:
    [jsonData.content = jsonData.content || []],
    [if (jsonData.content.length === 0) jsonData.content.push({})],
    [jsonData.content[0].data = base64Content]. *)
Definition splice (jsonData : value) (base64Content : string) : result value :=
  content <- get jsonData "content" ;;
  jsonData <- set_prop jsonData "content"
                (if truthy content then content else VArr [] []) ;;
  content <- get jsonData "content" ;;
  len <- get content "length" ;;
  jsonData <- (if strict_eq_number len 0 then
                 content <- push content (VObj []) ;;
                 set_prop jsonData "content" content
               else Ok jsonData) ;;
  content <- get jsonData "content" ;;
  first <- get content "0" ;;
  first <- set_prop first "data" (VStr base64Content) ;;
  set_prop jsonData "content" (store_first content first).

(** The gate of the [else if]:
    [errors.length === 1 && errors[0].includes("content")], then the
    missing-payload predicate. *)
Definition payloadOnly (validation : validation) (jsonData : value) : result bool :=
  if Nat.eqb (length (errors validation)) 1
     && match head (errors validation) with
        | Some e => includes e "content"
        | None => false
        end
  then isLensMissingBase64Content jsonData
  else Ok false.

(** The enhancement branch.  The first log line interpolates
    [jsonData.id] before anything is written; the inner [try] covers the
    splice, the re-validation and the push. *)
Definition enhanceLens (h : host) (enhanceFiles : enhance_index)
    (filePath : string) (jsonData : value) : result (option lensEntry) :=
  id <- get jsonData "id" ;;
  _ <- interpolate id ;;
  let '(base64Content, enhanceFile, enhanceSource) :=
    resolveEnhance h enhanceFiles filePath in
  Ok (try_catch
        (jsonData <- splice jsonData base64Content ;;
         revalidation <- validateFHIRLens jsonData ;;
         if isValid revalidation then
           lensEntry <- makeEntry jsonData filePath enhanceFile (Some enhanceSource) ;;
           Ok (Some lensEntry)
         else Ok None)
        (fun _ => None)).

(** The body of the outer [try] for one file: the entry it pushes, if
    any. *)
Definition processFile (h : host) (enhanceFiles : enhance_index)
    (filePath : string) : result (option lensEntry) :=
  content <- readFileSync h filePath ;;
  jsonData <- JSON_parse h content ;;
  validation <- validateFHIRLens jsonData ;;
  if isValid validation then
    id <- get jsonData "id" ;;
    _ <- interpolate id ;;
    lensEntry <- makeEntry jsonData filePath None None ;;
    Ok (Some lensEntry)
  else
    gate <- payloadOnly validation jsonData ;;
    if gate then enhanceLens h enhanceFiles filePath jsonData
    else Ok None.

(** One iteration of the loop over [lensFiles], with the [catch] that
    only logs. *)
Definition visitFile (h : host) (enhanceFiles : enhance_index)
    (validLenses : list lensEntry) (filePath : string) : list lensEntry :=
  match processFile h enhanceFiles filePath with
  | Ok (Some lensEntry) => validLenses ++ [lensEntry]
  | Ok None | Throw _ => validLenses
  end.

(** [discoverLenses]: the outer [catch] rethrows, so a throw of either
    scan is the throw of the call. *)
Definition discoverLenses (h : host) (tree : node) (lensFilePath : string)
  : result (list lensEntry) :=
  lensFiles <- findJsonFiles h tree lensFilePath ;;
  enhanceFiles <- findEnhanceFiles h tree lensFilePath ;;
  Ok (fold_left (visitFile h enhanceFiles) lensFiles []).

(** ** Documents as [JSON.parse] builds them

    No [undefined] anywhere, and no own named property on an array. *)
Fixpoint json (v : value) : bool :=
  match v with
  | VUndefined => false
  | VNull | VBool _ | VNum _ | VStr _ => true
  | VArr items props =>
      forallb json items && match props with [] => true | _ :: _ => false end
  | VObj fields => forallb (fun kv => json kv.2) fields
  end.

(** ** The missing-payload predicate, in the words of the specification *)

Definition nonempty_string (v : value) : bool :=
  match v with
  | VStr s => negb (String.eqb s EmptyString)
  | _ => false
  end.

(** The [data] field of an item; absent on an item that has no fields. *)
Definition data_of (item : value) : value :=
  match item with
  | VArr _ props => default VUndefined (own "data" props)
  | VObj fields => default VUndefined (own "data" fields)
  | _ => VUndefined
  end.

(** The [content] field of a document; absent on a non-document. *)
Definition content_of (doc : value) : value :=
  match doc with
  | VArr _ props => default VUndefined (own "content" props)
  | VObj fields => default VUndefined (own "content" fields)
  | _ => VUndefined
  end.

(** [content] is absent, not an array, or empty; or has exactly one item
    whose [data] is absent, empty, or not a string; or has several items
    none of which has a non-empty string [data]. *)
Definition missing_payload (doc : value) : bool :=
  match content_of doc with
  | VArr [] _ => true
  | VArr [item] _ => negb (nonempty_string (data_of item))
  | VArr items _ => negb (existsb (fun c => nonempty_string (data_of c)) items)
  | _ => true
  end.

(** ** The splice, in the words of the specification

    [content] is a sequence whose first element carries the payload in
    [data]; one element, empty but for the payload, is there when
    [content] was empty; the elements after the first are the ones that
    were there. *)
Definition splice_post (before after : value) (base64Content : string) : Prop :=
  exists items props,
    get after "content" = Ok (VArr items props)
    /\ (exists first, head items = Some first
                     /\ get first "data" = Ok (VStr base64Content))
    /\ (items_of (content_of before) = [] ->
        items = [VObj [("data", VStr base64Content)]])
    /\ (items_of (content_of before) <> [] ->
        length items = length (items_of (content_of before)))
    /\ tail items = tail (items_of (content_of before)).

(** Objects and arrays: the values a write can reach. *)
Definition is_reference (v : value) : bool :=
  match v with
  | VArr _ _ | VObj _ => true
  | _ => false
  end.

(** [content] is absent or falsy, or an array whose first element, when
    there is one, is an object or an array. *)
Definition spliceable (content : value) : bool :=
  match content with
  | VArr [] _ => true
  | VArr (first :: _) _ => is_reference first
  | _ => negb (truthy content)
  end.

(** The document after the write [doc.content = c]. *)
Definition with_content (doc : value) (c : value) : value :=
  match doc with
  | VArr items props => VArr items (define "content" c props)
  | VObj fields => VObj (define "content" c fields)
  | _ => doc
  end.

(** [content[0].data] of a document. *)
Definition first_data (doc : value) : result value :=
  content <- get doc "content" ;;
  first <- get content "0" ;;
  get first "data".

(** What a file contributes to the output: its entry, or nothing. *)
Definition contribution (h : host) (enhanceFiles : enhance_index)
    (filePath : string) : list lensEntry :=
  match processFile h enhanceFiles filePath with
  | Ok (Some lensEntry) => [lensEntry]
  | Ok None | Throw _ => []
  end.

(** The walk succeeds: every directory met can be listed and every entry
    can be examined. *)
Fixpoint walkable (n : node) : bool :=
  match n with
  | Dir files =>
      forallb (fun entry : string * node =>
                 match isDirectory entry.2 with
                 | Ok true => walkable entry.2
                 | Ok false => true
                 | Throw _ => false
                 end) files
  | _ => false
  end.

(** An entry the walk gets past. *)
Definition entry_ok (entry : string * node) : bool :=
  match isDirectory entry.2 with
  | Ok true => walkable entry.2
  | Ok false => true
  | Throw _ => false
  end.

(** No script registered under a key: no binding, or an empty path. *)
Definition unregistered (o : option string) : Prop :=
  o = None \/ o = Some EmptyString.

(** ** A concrete host

    POSIX [path] on the inputs the scanner gives it: a directory path in
    normal form without a trailing separator, and entry names as
    [readdirSync] returns them (no separator, neither [.] nor [..]). *)
Module Posix.

Fixpoint last_index (c : ascii) (s : string) (i : nat) (acc : option nat)
  : option nat :=
  match s with
  | EmptyString => acc
  | String c' rest =>
      last_index c rest (S i) (if Ascii.eqb c' c then Some i else acc)
  end.

Definition join (dir file : string) : string := dir +:+ "/" +:+ file.

(** From the last dot to the end; nothing when there is no dot or the
    only dot leads the name. *)
Definition extname (file : string) : string :=
  match last_index "."%char file 0 None with
  | Some (S i) => String.substring (S i) (String.length file - S i) file
  | _ => EmptyString
  end.

Fixpoint ends_with (s suffix : string) : bool :=
  String.eqb s suffix ||
  match s with
  | EmptyString => false
  | String _ rest => ends_with rest suffix
  end.

(** The name without the suffix [ext], when it ends with it and is not
    the suffix itself. *)
Definition basename (file ext : string) : string :=
  if ends_with file ext && negb (String.eqb file ext)
  then String.substring 0 (String.length file - String.length ext) file
  else file.

(** Up to the last separator. *)
Definition dirname (p : string) : string :=
  match last_index "/"%char p 0 None with
  | Some 0 => "/"
  | Some i => String.substring 0 i p
  | None => "."
  end.

End Posix.

(** A host over a finite table of file texts and of parsed documents. *)
Fixpoint table_lookup {A} (k : string) (table : list (string * A)) : option A :=
  match table with
  | [] => None
  | (k', a) :: rest => if String.eqb k' k then Some a else table_lookup k rest
  end.

Definition table_host (files : list (string * string))
    (parsed : list (string * value)) : host :=
  {| readFileSync := fun p =>
       match table_lookup p files with
       | Some text => Ok text
       | None => Throw IOError
       end;
     JSON_parse := fun text =>
       match table_lookup text parsed with
       | Some v => Ok v
       | None => Throw SyntaxError
       end;
     path_join := Posix.join;
     path_extname := Posix.extname;
     path_basename := Posix.basename;
     path_dirname := Posix.dirname |}.

(** *** Scenario: a document without payload and its sibling script

    [lenses/x.json] holds the document
    [{resourceType:"Library", id:"x", url:"u", name:"n", status:"draft",
    content:[]}] and [lenses/x.js] the text
    [function enhance(d){return d;}]. *)
Module Sibling.

Definition script : string := "function enhance(d){return d;}".

Definition text : string :=
  "{" +:+ dquote +:+ "resourceType" +:+ dquote +:+ ":" +:+ dquote +:+ "Library" +:+ dquote +:+
  "," +:+ dquote +:+ "id" +:+ dquote +:+ ":" +:+ dquote +:+ "x" +:+ dquote +:+
  "," +:+ dquote +:+ "url" +:+ dquote +:+ ":" +:+ dquote +:+ "u" +:+ dquote +:+
  "," +:+ dquote +:+ "name" +:+ dquote +:+ ":" +:+ dquote +:+ "n" +:+ dquote +:+
  "," +:+ dquote +:+ "status" +:+ dquote +:+ ":" +:+ dquote +:+ "draft" +:+ dquote +:+
  "," +:+ dquote +:+ "content" +:+ dquote +:+ ":[]}".

Definition document : value :=
  VObj [("resourceType", VStr "Library"); ("id", VStr "x"); ("url", VStr "u");
        ("name", VStr "n"); ("status", VStr "draft"); ("content", VArr [] [])].

Definition tree : node := Dir [("x.json", File); ("x.js", File)].

Definition h : host :=
  table_host [("lenses/x.json", text); ("lenses/x.js", script)]
             [(text, document)].

(** The document once the default payload is spliced in. *)
Definition enhanced : value :=
  VObj [("resourceType", VStr "Library"); ("id", VStr "x"); ("url", VStr "u");
        ("name", VStr "n"); ("status", VStr "draft");
        ("content", VArr [VObj [("data", VStr getDefaultEnhanceBase64)]] [])].

Definition entry : lensEntry :=
  {| lens_id := VStr "x"; lens_name := VStr "n"; lens_url := VStr "u";
     lens_version := VStr "unknown"; lens_status := VStr "draft";
     lens_path := "lenses/x.json"; hasBase64 := true;
     enhancedWithJs := None; enhanceSource := Some "default";
     lens := enhanced |}.

End Sibling.

(** *** Scenario: the same document, and a script that carries a marker

    [lenses/x.js] starts with the comment [// export.*enhance], one of
    the four texts the scanner looks for. *)
Module Marked.

Definition script : string :=
  "// export.*enhance" +:+ newline +:+ "function enhance(d){return d;}".

Definition h : host :=
  table_host [("lenses/x.json", Sibling.text); ("lenses/x.js", script)]
             [(Sibling.text, Sibling.document)].

Definition index : enhance_index :=
  {| exact := {[ "lenses/x.json" := "lenses/x.js" ]};
     fallback := {[ "lenses" := ["lenses/x.js"] ]} |}.

Definition enhanced : value :=
  VObj [("resourceType", VStr "Library"); ("id", VStr "x"); ("url", VStr "u");
        ("name", VStr "n"); ("status", VStr "draft");
        ("content", VArr [VObj [("data", VStr (base64_encode script))]] [])].

Definition entry : lensEntry :=
  {| lens_id := VStr "x"; lens_name := VStr "n"; lens_url := VStr "u";
     lens_version := VStr "unknown"; lens_status := VStr "draft";
     lens_path := "lenses/x.json"; hasBase64 := true;
     enhancedWithJs := Some "lenses/x.js"; enhanceSource := Some "exact-match";
     lens := enhanced |}.

End Marked.

(** *** Documents the validator is run on *)
Module Docs.

(** Every field but [id] is in order. *)
Definition without_id : value :=
  VObj [("resourceType", VStr "Library"); ("url", VStr "u"); ("name", VStr "n");
        ("status", VStr "draft"); ("content", VArr [VObj [("data", VStr "QQ==")]] [])].

(** [content] is [[null]]. *)
Definition null_item : value :=
  VObj [("resourceType", VStr "Library"); ("id", VStr "x"); ("url", VStr "u");
        ("name", VStr "n"); ("status", VStr "draft"); ("content", VArr [VNull] [])].

(** [content] is the string ["abc"]. *)
Definition string_content : value :=
  VObj [("resourceType", VStr "Library"); ("id", VStr "x"); ("url", VStr "u");
        ("name", VStr "n"); ("status", VStr "draft"); ("content", VStr "abc")].

(** [content] is [[5]]. *)
Definition number_item : value :=
  VObj [("resourceType", VStr "Library"); ("id", VStr "x"); ("url", VStr "u");
        ("name", VStr "n"); ("status", VStr "draft"); ("content", VArr [VNum 5] [])].

(** [content] is [[{}, {"data": ""}]]. *)
Definition two_items : value :=
  VObj [("resourceType", VStr "Library"); ("id", VStr "x"); ("url", VStr "u");
        ("name", VStr "n"); ("status", VStr "draft");
        ("content", VArr [VObj []; VObj [("data", VStr EmptyString)]] [])].

End Docs.

(** ** The validator, message by message

    The field of a plain name, and for each message the condition under
    which a document violates it. *)
Definition field (k : string) (doc : value) : value :=
  match doc with
  | VArr _ props => default VUndefined (own k props)
  | VObj fields => default VUndefined (own k fields)
  | _ => VUndefined
  end.

(** An item that carries a payload: its [data] is a non-empty string. *)
Definition has_payload (item : value) : bool := nonempty_string (data_of item).

Definition nullish (v : value) : bool :=
  match v with
  | VNull | VUndefined => true
  | _ => false
  end.

(** The messages, in the order of the checks. *)
Definition all_messages : list string :=
  [msg_resourceType; msg_url; msg_name; msg_status; msg_content_array;
   msg_content_data].

Definition violated (lens : value) (m : string) : bool :=
  if String.eqb m msg_resourceType
  then negb (strict_eq_string (field "resourceType" lens) "Library")
  else if String.eqb m msg_url then negb (nonempty_string (field "url" lens))
  else if String.eqb m msg_name then negb (nonempty_string (field "name" lens))
  else if String.eqb m msg_status then negb (nonempty_string (field "status" lens))
  else if String.eqb m msg_content_array then negb (isArray (content_of lens))
  else if String.eqb m msg_content_data
  then isArray (content_of lens)
       && negb (existsb has_payload (items_of (content_of lens)))
  else false.

(** Where the loop over [content] stops: at the first item that is
    [null] or [undefined], or that carries a payload. *)
Definition first_stop (items : list value) : option value :=
  List.find (fun i => nullish i || has_payload i) items.

(** ** The scans, in closed form *)

(** The document paths under a directory, depth first, in the order of
    the listings. *)
Fixpoint jsonPaths (h : host) (currentDir : string) (n : node) : list string :=
  match n with
  | Dir files =>
      flat_map (fun entry : string * node =>
                  let filePath := path_join h currentDir entry.1 in
                  match isDirectory entry.2 with
                  | Ok true => jsonPaths h filePath entry.2
                  | Ok false =>
                      if String.eqb (path_extname h entry.1) ".json"
                      then [filePath]
                      else []
                  | Throw _ => []
                  end) files
  | _ => []
  end.

(** A script the scanner may register: a file it could read, whose text
    holds one of the markers. *)
Definition registered (h : host) (js : string) : Prop :=
  exists text, readFileSync h js = Ok text /\ hasEnhance text = true.

Definition index_sound (h : host) (idx : enhance_index) : Prop :=
  (forall k js, exact idx !! k = Some js -> registered h js)
  /\ (forall d l, fallback idx !! d = Some l ->
                  l <> [] /\ Forall (registered h) l).

(** ** The service: [getLenses], [getLensByName], [getLensNames], [clearCache]

    The cache is the [Map] of the module, threaded through the calls.
    [Date.now()] is read once for the test of an entry and once more
    when a result is stored; [CACHE_TTL] is a number or [NaN] ([None]).
    [discover] is the validator's [discoverLenses] at the time of the
    call: the service hands it [repoUrl], [branch] and [lensFilePath],
    and the function has the single parameter [lensFilePath], so it
    scans [repoUrl].  Calls are taken one after the other. *)

Record cache_entry := { cached_lenses : list lensEntry; timestamp : Z }.

Inductive failure :=
| MissingRepoUrl
| DiscoveryFailed (e : error)
| LensNotFound (lensName : string).

Inductive outcome (A : Type) :=
| Resolved (a : A)
| Rejected (f : failure).
Arguments Resolved {A} a.
Arguments Rejected {A} f.

(** [error.statusCode]: set on the error of a missing lens only. *)
Definition statusCode (f : failure) : option nat :=
  match f with
  | LensNotFound _ => Some 404%nat
  | _ => None
  end.

(** [`${x}`] for a string that may be [undefined]. *)
Definition template (x : option string) : string :=
  match x with
  | Some s => s
  | None => "undefined"
  end.

Definition cacheKey (repoUrl branch lensFilePath : option string) : string :=
  template repoUrl +:+ ":" +:+ template branch +:+ ":" +:+ template lensFilePath.

(** [Date.now() - cached.timestamp < CACHE_TTL] *)
Definition fresh (CACHE_TTL : option Z) (now : Z) (stamp : Z) : bool :=
  match CACHE_TTL with
  | Some ttl => (now - stamp <? ttl)%Z
  | None => false
  end.

Definition getLenses (CACHE_TTL : option Z)
    (discover : string -> result (list lensEntry)) (now stored : Z)
    (repoUrl branch lensFilePath : option string)
    (lensCache : gmap string cache_entry)
  : outcome (list lensEntry) * gmap string cache_entry :=
  if negb (path_truthy repoUrl) then (Rejected MissingRepoUrl, lensCache)
  else
    let key := cacheKey repoUrl branch lensFilePath in
    let discovering (lensCache : gmap string cache_entry) :=
      match discover (template repoUrl) with
      | Ok lenses =>
          (Resolved lenses,
           <[key := {| cached_lenses := lenses; timestamp := stored |}]> lensCache)
      | Throw e => (Rejected (DiscoveryFailed e), lensCache)
      end in
    match lensCache !! key with
    | Some cached =>
        if fresh CACHE_TTL now (timestamp cached)
        then (Resolved (cached_lenses cached), lensCache)
        else discovering (delete key lensCache)
    | None => discovering lensCache
    end.

(** [l.name === lensName || l.id === lensName] *)
Definition named (lensName : string) (l : lensEntry) : bool :=
  strict_eq_string (lens_name l) lensName || strict_eq_string (lens_id l) lensName.

Definition getLensByName (CACHE_TTL : option Z)
    (discover : string -> result (list lensEntry)) (now stored : Z)
    (repoUrl branch lensFilePath : option string) (lensName : string)
    (lensCache : gmap string cache_entry)
  : outcome value * gmap string cache_entry :=
  match getLenses CACHE_TTL discover now stored repoUrl branch lensFilePath lensCache with
  | (Resolved lenses, lensCache) =>
      match List.find (named lensName) lenses with
      | Some l => (Resolved (lens l), lensCache)
      | None => (Rejected (LensNotFound lensName), lensCache)
      end
  | (Rejected f, lensCache) => (Rejected f, lensCache)
  end.

Definition getLensNames (CACHE_TTL : option Z)
    (discover : string -> result (list lensEntry)) (now stored : Z)
    (repoUrl branch lensFilePath : option string)
    (lensCache : gmap string cache_entry)
  : outcome (list value) * gmap string cache_entry :=
  match getLenses CACHE_TTL discover now stored repoUrl branch lensFilePath lensCache with
  | (Resolved lenses, lensCache) => (Resolved (map lens_id lenses), lensCache)
  | (Rejected f, lensCache) => (Rejected f, lensCache)
  end.

Definition clearCache (lensCache : gmap string cache_entry)
  : gmap string cache_entry := ∅.

(** ** The routes: [GET /lenses] and [GET /lenses/:name]

    The environment gives [GIT_REPO_URL], [GIT_BRANCH] and
    [LENS_FILE_PATH]; a response is a status and a body, and the body of
    an error names its cause, whose message it carries. *)

Inductive body :=
| LensList (lenses : list value)
| Document (doc : value)
| ErrorBody (error : string) (cause : failure).

Record response := { res_status : nat; res_body : body }.

Definition listRoute (CACHE_TTL : option Z)
    (discover : string -> result (list lensEntry)) (now stored : Z)
    (GIT_REPO_URL GIT_BRANCH LENS_FILE_PATH : option string)
    (lensCache : gmap string cache_entry)
  : response * gmap string cache_entry :=
  match getLensNames CACHE_TTL discover now stored
          GIT_REPO_URL GIT_BRANCH LENS_FILE_PATH lensCache with
  | (Resolved lensNames, lensCache) =>
      ({| res_status := 200; res_body := LensList lensNames |}, lensCache)
  | (Rejected f, lensCache) =>
      ({| res_status := 500; res_body := ErrorBody "Failed to fetch lenses" f |},
       lensCache)
  end.

Definition lensRoute (CACHE_TTL : option Z)
    (discover : string -> result (list lensEntry)) (now stored : Z)
    (GIT_REPO_URL GIT_BRANCH LENS_FILE_PATH : option string) (name : string)
    (lensCache : gmap string cache_entry)
  : response * gmap string cache_entry :=
  match getLensByName CACHE_TTL discover now stored
          GIT_REPO_URL GIT_BRANCH LENS_FILE_PATH name lensCache with
  | (Resolved lens, lensCache) =>
      ({| res_status := 200; res_body := Document lens |}, lensCache)
  | (Rejected f, lensCache) =>
      match statusCode f with
      | Some 404%nat =>
          ({| res_status := 404; res_body := ErrorBody "Lens not found" f |}, lensCache)
      | _ =>
          ({| res_status := 500; res_body := ErrorBody "Failed to fetch lens" f |},
           lensCache)
      end
  end.


(** The lenses a call of [getLenses] works from, when [repoUrl] is
    given: those of a fresh cache entry, else what a discovery yields. *)
Definition lenses_seen (CACHE_TTL : option Z)
    (discover : string -> result (list lensEntry)) (now : Z)
    (repoUrl branch lensFilePath : option string)
    (lensCache : gmap string cache_entry) : result (list lensEntry) :=
  match lensCache !! cacheKey repoUrl branch lensFilePath with
  | Some cached =>
      if fresh CACHE_TTL now (timestamp cached)
      then Ok (cached_lenses cached)
      else discover (template repoUrl)
  | None => discover (template repoUrl)
  end.

(** ** The working copy: [getRepoLocalPath]

    [repoUrl.split('/').pop().replace('.git', '')], joined to the base
    directory: [tempDir], else [LENS_REPOS_TEMP_DIR], else
    [/tmp/lens-repos]. *)

(** [s.split(sep)] for a one-character separator. *)
Fixpoint split_on (sep : ascii) (s : string) : list string :=
  match s with
  | EmptyString => [EmptyString]
  | String c rest =>
      if Ascii.eqb c sep then EmptyString :: split_on sep rest
      else match split_on sep rest with
           | piece :: pieces => String c piece :: pieces
           | [] => [String c EmptyString]
           end
  end.

(** [parts.pop()] on the result of a [split], which is never empty. *)
Definition pop (parts : list string) : string := List.last parts EmptyString.

Fixpoint string_drop (n : nat) (s : string) : string :=
  match n, s with
  | S n', String _ rest => string_drop n' rest
  | _, _ => s
  end.

(** [s.replace(pattern, '')] for a string pattern: the first occurrence
    goes. *)
Fixpoint remove_first (pattern s : string) : string :=
  if String.prefix pattern s then string_drop (String.length pattern) s
  else match s with
       | EmptyString => EmptyString
       | String c rest => String c (remove_first pattern rest)
       end.

(** [a || b] on strings that may be [undefined]. *)
Definition or_else (a b : option string) : option string :=
  if path_truthy a then a else b.

Definition repoName (repoUrl : string) : string :=
  remove_first ".git" (pop (split_on "/"%char repoUrl)).

Definition getRepoLocalPath (h : host) (LENS_REPOS_TEMP_DIR : option string)
    (repoUrl : string) (tempDir : option string) : string :=
  let baseDir :=
    template (or_else (or_else tempDir LENS_REPOS_TEMP_DIR) (Some "/tmp/lens-repos")) in
  path_join h baseDir (repoName repoUrl).

(** A text without the character [c]. *)
Fixpoint without (c : ascii) (s : string) : bool :=
  match s with
  | EmptyString => true
  | String c' rest => negb (Ascii.eqb c' c) && without c rest
  end.

(* ================================================================== *)
(** * Properties *)

(** ** Properties of the validator *)

(** Arithmetic on the numbers the program meets: lengths. *)
Lemma strict_eq_number_length_0 (n : nat) :
  strict_eq_number (number_of_nat n) 0 = Nat.eqb n 0.
Proof. destruct n; reflexivity. Qed.

Lemma strict_eq_number_length_1 (n : nat) :
  strict_eq_number (number_of_nat n) 1 = Nat.eqb n 1.
Proof.
  destruct n as [|[|n]]; try reflexivity.
  unfold strict_eq_number, number_of_nat, Qeq_bool, inject_Z; simpl.
  rewrite Pos.mul_1_r. destruct (Pos.of_succ_nat n); reflexivity.
Qed.

Lemma gt_zero_length (n : nat) :
  gt_zero (number_of_nat n) = negb (Nat.eqb n 0).
Proof. destruct n; reflexivity. Qed.

Lemma typeof_object (v : value) :
  truthy v = true -> String.eqb (typeof v) "object" = true ->
  (exists items props, v = VArr items props) \/ (exists fields, v = VObj fields).
Proof. destruct v; simpl; try discriminate; eauto. Qed.

(** A read from an object or an array never throws. *)
Lemma get_object (v : value) (k : string) :
  truthy v = true -> String.eqb (typeof v) "object" = true ->
  exists x, get v k = Ok x.
Proof.
  intros Ht Ho. destruct (typeof_object v Ht Ho) as [(items & props & ->)|(fields & ->)];
    simpl; [destruct (String.eqb k "length"); [eauto|destruct (array_index k); eauto]|eauto].
Qed.

(** A read of a plain name agrees with the field of that name. *)
Lemma get_data (item : value) :
  item <> VNull -> item <> VUndefined -> get item "data" = Ok (data_of item).
Proof. destruct item; intros; try contradiction; reflexivity. Qed.

Lemma get_content (doc : value) :
  doc <> VNull -> doc <> VUndefined -> get doc "content" = Ok (content_of doc).
Proof. destruct doc; intros; try contradiction; reflexivity. Qed.

Example base64_hello : base64_encode "Hello World!" = "SGVsbG8gV29ybGQh".
Proof. reflexivity. Qed.

Example base64_padding :
  base64_encode "A" = "QQ==" /\ base64_encode "AB" = "QUI=" /\
  base64_decode "QQ==" = Some "A" /\ base64_decode "QUI=" = Some "AB" /\
  base64_decode "SGVsbG8gV29ybGQh" = Some "Hello World!".
Proof. repeat split; reflexivity. Qed.

Lemma push_if_fields (c1 c2 c3 c4 : bool) :
  let errs := push_if c4 msg_status (push_if c3 msg_name
                (push_if c2 msg_url (push_if c1 msg_resourceType []))) in
  List.filter (fun e => includes e "content") errs = []
  /\ ~ In msg_content_array errs /\ ~ In msg_content_data errs
  /\ (errs = [] <-> c1 = false /\ c2 = false /\ c3 = false /\ c4 = false).
Proof.
  destruct c1, c2, c3, c4; vm_compute;
    (split; [reflexivity|]); (split; [intuition discriminate|]);
    (split; [intuition discriminate|]); intuition discriminate.
Qed.

(** A result is valid exactly when it carries no message. *)
Lemma validateFHIRLens_valid_no_errors (lens : value) (v : validation) :
  validateFHIRLens lens = Ok v -> isValid v = true ->
  v = {| isValid := true; errors := [] |}.
Proof.
  unfold validateFHIRLens.
  destruct (negb (truthy lens) || negb (String.eqb (typeof lens) "object")).
  - intros [= <-]. discriminate.
  - destruct (get lens "resourceType"); [simpl|discriminate].
    destruct (get lens "url"); [simpl|discriminate].
    destruct (get lens "name"); [simpl|discriminate].
    destruct (get lens "status"); [simpl|discriminate].
    destruct (get lens "content") as [content|]; [simpl|discriminate].
    match goal with
    | |- context [bind ?e _] => destruct e as [errs|]; [simpl|discriminate]
    end.
    intros [= <-]. simpl. destruct errs; [reflexivity|discriminate].
Qed.

(** Anything but an object or an array stops at the first test. *)
Lemma validateFHIRLens_primitive (lens : value) :
  is_reference lens = false ->
  validateFHIRLens lens = Ok {| isValid := false; errors := [msg_object] |}.
Proof.
  unfold validateFHIRLens. destruct lens; try discriminate; intros _; simpl;
    try reflexivity.
  - destruct b; reflexivity.
  - destruct (negb (Qeq_bool n 0)); reflexivity.
  - destruct (negb (String.eqb s EmptyString)); reflexivity.
Qed.

(** C8, as the validator has it: for every input that is [null], absent,
    or not of type object, [validateFHIRLens] returns exactly
    [{isValid: false, errors: ['Lens must be a JSON object']}], a single
    message, and runs no further check. *)
Theorem validateFHIRLens_non_object (lens : value) :
  lens = VNull \/ lens = VUndefined \/ typeof lens <> "object" ->
  validateFHIRLens lens =
  Ok {| isValid := false; errors := ["Lens must be a JSON object"] |}.
Proof.
  intros H. apply validateFHIRLens_primitive.
  destruct H as [-> | [-> | Hty]]; [reflexivity | reflexivity |].
  destruct lens; try reflexivity; simpl in Hty; contradiction.
Qed.

Lemma validateFHIRLens_non_object_witness :
  validateFHIRLens (VStr "not an object") =
  Ok {| isValid := false; errors := ["Lens must be a JSON object"] |}.
Proof.
  apply (validateFHIRLens_non_object (VStr "not an object")).
  right. right. simpl. discriminate.
Defined.

(** C8, as the specification words it, fails on [null]: the single
    message is not "document must be a structured object". *)
Lemma validateFHIRLens_null_message :
  validateFHIRLens VNull <>
  Ok {| isValid := false; errors := ["document must be a structured object"] |}.
Proof. vm_compute. discriminate. Qed.

(** C10: whatever the input, the messages returned by [validateFHIRLens]
    hold at most one that mentions [content]; "content must be an array"
    and "content must include at least one item with base64 encoded
    data" never occur together. *)
Theorem content_messages_exclusive (lens : value) (v : validation) :
  validateFHIRLens lens = Ok v ->
  length (List.filter (fun e => includes e "content") (errors v)) <= 1
  /\ ~ (In msg_content_array (errors v) /\ In msg_content_data (errors v)).
Proof.
  unfold validateFHIRLens.
  destruct (negb (truthy lens) || negb (String.eqb (typeof lens) "object")).
  { intros [= <-]. vm_compute. split; [lia | intuition discriminate]. }
  destruct (get lens "resourceType") as [resourceType|]; [simpl|discriminate].
  destruct (get lens "url") as [url|]; [simpl|discriminate].
  destruct (get lens "name") as [name|]; [simpl|discriminate].
  destruct (get lens "status") as [status|]; [simpl|discriminate].
  destruct (get lens "content") as [content|]; [simpl|discriminate].
  destruct (push_if_fields (negb (strict_eq_string resourceType "Library"))
              (not_a_string url) (not_a_string name) (not_a_string status))
    as (Hnone & Harr & Hdata & _).
  set (errs := push_if _ msg_status _) in *.
  destruct (negb (isArray content)).
  - simpl. intros [= <-]. simpl. split.
    + rewrite List.filter_app, Hnone. simpl. lia.
    + intros [_ H]. apply in_app_or in H as [H|H]; [tauto|].
      vm_compute in H. intuition discriminate.
  - destruct (hasBase64Content (items_of content)) as [found|]; [simpl|discriminate].
    intros [= <-]. simpl. destruct found; simpl.
    + rewrite Hnone. split; [simpl; lia | tauto].
    + split.
      * rewrite List.filter_app, Hnone. simpl. lia.
      * intros [H _]. apply in_app_or in H as [H|H]; [tauto|].
        vm_compute in H. intuition discriminate.
Qed.

Lemma content_messages_exclusive_witness :
  length (List.filter (fun e => includes e "content")
            [msg_content_data]) <= 1
  /\ ~ (In msg_content_array [msg_content_data]
        /\ In msg_content_data [msg_content_data]).
Proof.
  apply (content_messages_exclusive Sibling.document
           {| isValid := false; errors := [msg_content_data] |}).
  reflexivity.
Defined.

(** The validator reads [resourceType], [url], [name], [status] and
    [content]; a write of [id] changes nothing it sees. *)
Lemma own_define_other (k k' : string) (x : value) (fields : list (string * value)) :
  k' <> k -> own k' (define k x fields) = own k' fields.
Proof.
  intros Hne. induction fields as [|[k0 v] rest IH]; simpl.
  - destruct (String.eqb_spec k k'); [congruence|reflexivity].
  - destruct (String.eqb_spec k0 k) as [->|Hk]; simpl.
    + destruct (String.eqb_spec k k'); [congruence|reflexivity].
    + destruct (String.eqb k0 k'); [reflexivity|exact IH].
Qed.

Lemma validateFHIRLens_ignores_id (fields : list (string * value)) (x : value) :
  validateFHIRLens (VObj (define "id" x fields)) = validateFHIRLens (VObj fields).
Proof.
  unfold validateFHIRLens. simpl.
  rewrite !own_define_other by discriminate. reflexivity.
Qed.

(** The loop over [content] returns when no item is [null] or
    [undefined]. *)
Lemma hasBase64Content_returns (items : list value) :
  (forall item, In item items -> item <> VNull /\ item <> VUndefined) ->
  exists found, hasBase64Content items = Ok found.
Proof.
  induction items as [|item rest IH]; intros Hitems; simpl; [eauto|].
  destruct (Hitems item (or_introl eq_refl)) as [Hn Hu].
  rewrite (get_data item Hn Hu). cbn [bind].
  destruct (truthy (data_of item) && String.eqb (typeof (data_of item)) "string");
    [eauto|].
  apply IH. intros i Hi. apply Hitems. right. exact Hi.
Qed.

(** C3, on the code: a document in order but for its missing [id] is
    accepted; the validator has no test of [id] and no message for it. *)
Theorem validateFHIRLens_without_id :
  validateFHIRLens Docs.without_id = Ok {| isValid := true; errors := [] |}
  /\ get Docs.without_id "id" = Ok VUndefined.
Proof. split; reflexivity. Qed.

(** C4, on the code: on a [content] of [[null]] the loop reads
    [item.data] of [null], and the validator throws a [TypeError]. *)
Theorem validateFHIRLens_null_item :
  validateFHIRLens Docs.null_item = Throw TypeError.
Proof. reflexivity. Qed.

(** ** Properties of the payload encoding *)

Lemma base64_value_digit (n : nat) :
  n < 64 -> base64_value (base64_digit n) = Some n.
Proof.
  intros H. do 64 (destruct n as [|n]; [reflexivity|]). lia.
Qed.

(** The digits of a group of three bytes, and the bytes back. *)
Lemma base64_group3 (x y z : nat) :
  x < 256 -> y < 256 -> z < 256 ->
  x / 4 < 64 /\ x mod 4 * 16 + y / 16 < 64
  /\ y mod 16 * 4 + z / 64 < 64 /\ z mod 64 < 64
  /\ x / 4 * 4 + (x mod 4 * 16 + y / 16) / 16 = x
  /\ (x mod 4 * 16 + y / 16) mod 16 * 16 + (y mod 16 * 4 + z / 64) / 4 = y
  /\ (y mod 16 * 4 + z / 64) mod 4 * 64 + z mod 64 = z.
Proof.
  intros Hx Hy Hz.
  pose proof (Nat.div_mod_eq x 4). pose proof (Nat.mod_upper_bound x 4 ltac:(lia)).
  pose proof (Nat.div_mod_eq y 16). pose proof (Nat.mod_upper_bound y 16 ltac:(lia)).
  pose proof (Nat.div_mod_eq z 64). pose proof (Nat.mod_upper_bound z 64 ltac:(lia)).
  assert (E1 : (x mod 4 * 16 + y / 16) / 16 = x mod 4)
    by (rewrite Nat.div_add_l by lia; rewrite (Nat.div_small (y / 16)) by lia; lia).
  assert (E2 : (x mod 4 * 16 + y / 16) mod 16 = y / 16)
    by (rewrite Nat.add_comm, Nat.Div0.mod_add; apply Nat.mod_small; lia).
  assert (E3 : (y mod 16 * 4 + z / 64) / 4 = y mod 16)
    by (rewrite Nat.div_add_l by lia; rewrite (Nat.div_small (z / 64)) by lia; lia).
  assert (E4 : (y mod 16 * 4 + z / 64) mod 4 = z / 64)
    by (rewrite Nat.add_comm, Nat.Div0.mod_add; apply Nat.mod_small; lia).
  rewrite E1, E2, E3, E4. repeat split; lia.
Qed.

Lemma base64_group2 (x y : nat) :
  x < 256 -> y < 256 ->
  y mod 16 * 4 < 64
  /\ (x mod 4 * 16 + y / 16) mod 16 * 16 + y mod 16 * 4 / 4 = y.
Proof.
  intros Hx Hy.
  pose proof (Nat.div_mod_eq y 16). pose proof (Nat.mod_upper_bound y 16 ltac:(lia)).
  pose proof (Nat.mod_upper_bound x 4 ltac:(lia)).
  assert (E2 : (x mod 4 * 16 + y / 16) mod 16 = y / 16)
    by (rewrite Nat.add_comm, Nat.Div0.mod_add; apply Nat.mod_small; lia).
  rewrite E2, Nat.div_mul by lia. split; lia.
Qed.

Lemma base64_group1 (x : nat) :
  x < 256 -> x mod 4 * 16 < 64 /\ x / 4 * 4 + x mod 4 * 16 / 16 = x.
Proof.
  intros Hx.
  pose proof (Nat.div_mod_eq x 4). pose proof (Nat.mod_upper_bound x 4 ltac:(lia)).
  rewrite Nat.div_mul by lia. split; lia.
Qed.

(** Three bytes at a time: the statement for a text and for the text
    with one or two more bytes in front. *)
Lemma base64_roundtrip_steps (s : string) :
  base64_decode (base64_encode s) = Some s
  /\ (forall a, base64_decode (base64_encode (String a s)) = Some (String a s))
  /\ (forall a b, base64_decode (base64_encode (String a (String b s)))
                  = Some (String a (String b s))).
Proof.
  induction s as [|c s (IH1 & IH2 & IH3)].
  - split; [reflexivity|]. split.
    + intros a. pose proof (nat_ascii_bounded a) as Ha.
      destruct (base64_group3 _ _ _ Ha Ha Ha) as (D1 & _).
      destruct (base64_group1 _ Ha) as (D2 & E).
      cbn [base64_encode base64_decode].
      rewrite !base64_value_digit by assumption.
      change (base64_value pad) with (@None nat).
      cbn [Ascii.eqb Bool.eqb pad andb]. cbv zeta.
      rewrite E, ascii_nat_embedding. reflexivity.
    + intros a b. pose proof (nat_ascii_bounded a) as Ha.
      pose proof (nat_ascii_bounded b) as Hb.
      destruct (base64_group3 _ _ _ Ha Hb Hb) as (D1 & D2 & _ & _ & E1 & _).
      destruct (base64_group2 _ _ Ha Hb) as (D3 & E2).
      cbn [base64_encode base64_decode].
      rewrite !base64_value_digit by assumption.
      change (base64_value pad) with (@None nat).
      cbn [Ascii.eqb Bool.eqb pad andb]. cbv zeta.
      rewrite E1, E2, !ascii_nat_embedding. reflexivity.
  - split; [exact (IH2 c)|]. split; [exact (fun a => IH3 a c)|].
    intros a b. pose proof (nat_ascii_bounded a) as Ha.
    pose proof (nat_ascii_bounded b) as Hb. pose proof (nat_ascii_bounded c) as Hc.
    destruct (base64_group3 _ _ _ Ha Hb Hc) as (D1 & D2 & D3 & D4 & E1 & E2 & E3).
    change (base64_encode (String a (String b (String c s)))) with
      (String (base64_digit (nat_of_ascii a / 4))
         (String (base64_digit (nat_of_ascii a mod 4 * 16 + nat_of_ascii b / 16))
            (String (base64_digit (nat_of_ascii b mod 16 * 4 + nat_of_ascii c / 64))
               (String (base64_digit (nat_of_ascii c mod 64)) (base64_encode s))))).
    cbn [base64_decode].
    rewrite !base64_value_digit by assumption. cbv zeta.
    rewrite IH1, E1, E2, E3, !ascii_nat_embedding. reflexivity.
Qed.

(** Decoding what [Buffer.from(text).toString('base64')] produced gives
    the text back. *)
Lemma base64_roundtrip (s : string) : base64_decode (base64_encode s) = Some s.
Proof. apply base64_roundtrip_steps. Qed.

(** What [jsToBase64] returns decodes to the text of the file. *)
Lemma jsToBase64_decodes (h : host) (filePath b : string) :
  jsToBase64 h filePath = Ok b ->
  exists text, readFileSync h filePath = Ok text /\ base64_decode b = Some text.
Proof.
  unfold jsToBase64. destruct (readFileSync h filePath) as [text|]; [|discriminate].
  intros [= <-]. exists text. split; [reflexivity|apply base64_roundtrip].
Qed.

(** ** Properties of the missing-payload predicate *)

Lemma own_define_same (k : string) (x : value) (fields : list (string * value)) :
  own k (define k x fields) = Some x.
Proof.
  induction fields as [|[k' v] rest IH]; simpl.
  - rewrite String.eqb_refl. reflexivity.
  - destruct (String.eqb k' k) eqn:E; simpl; rewrite E; [reflexivity|exact IH].
Qed.

Lemma own_json (k : string) (fields : list (string * value)) (x : value) :
  forallb (fun kv => json kv.2) fields = true -> own k fields = Some x ->
  json x = true.
Proof.
  induction fields as [|[k' v] rest IH]; simpl; [discriminate|].
  intros [Hv Hrest]%andb_prop. destruct (String.eqb k' k).
  - intros [= <-]. exact Hv.
  - apply IH, Hrest.
Qed.

Lemma json_array_props (items : list value) (props : list (string * value)) :
  json (VArr items props) = true -> props = [].
Proof. simpl. intros [_ H]%andb_prop. destruct props; [reflexivity|discriminate]. Qed.

Lemma string_length_0 (s : string) :
  Nat.eqb (String.length s) 0 = String.eqb s EmptyString.
Proof. destruct s; reflexivity. Qed.

Lemma falsy_no_data (item : value) : truthy item = false -> data_of item = VUndefined.
Proof. destruct item; simpl; try discriminate; reflexivity. Qed.

Lemma has_data_spec (c : value) :
  has_data c = Ok (nonempty_string (data_of c)).
Proof.
  unfold has_data. destruct (truthy c) eqn:Ht; simpl.
  - rewrite get_data by (intros ->; discriminate). simpl.
    destruct (data_of c) as [| | | |s| |]; try reflexivity.
    cbn. rewrite gt_zero_length, string_length_0. reflexivity.
  - rewrite (falsy_no_data c Ht). reflexivity.
Qed.

Lemma some_has_data_spec (items : list value) :
  some_has_data items = Ok (existsb (fun c => nonempty_string (data_of c)) items).
Proof.
  induction items as [|c rest IH]; simpl; [reflexivity|].
  rewrite has_data_spec. simpl.
  destruct (nonempty_string (data_of c)); [reflexivity|exact IH].
Qed.

(** The branch of a single item. *)
Lemma single_item_spec (item : value) :
  (if negb (truthy item) then Ok true
   else
     data <- get item "data" ;;
     if negb (String.eqb (typeof data) "string") then Ok true
     else
       dlen <- get data "length" ;;
       if strict_eq_number dlen 0 then Ok true else Ok false)
  = Ok (negb (nonempty_string (data_of item))).
Proof.
  destruct (truthy item) eqn:Ht; simpl.
  - rewrite get_data by (intros ->; discriminate). simpl.
    destruct (data_of item) as [| | | |s| |]; try reflexivity.
    cbn. rewrite strict_eq_number_length_0, string_length_0.
    destruct (String.eqb s EmptyString); reflexivity.
  - rewrite (falsy_no_data item Ht). reflexivity.
Qed.

(** The predicate on the [content] it has read. *)
Lemma missing_of_content (doc content : value) :
  get doc "content" = Ok content ->
  (forall items props, content = VArr items props -> own "some" props = None) ->
  isLensMissingBase64Content doc =
  Ok match content with
     | VArr [] _ => true
     | VArr [item] _ => negb (nonempty_string (data_of item))
     | VArr items _ => negb (existsb (fun c => nonempty_string (data_of c)) items)
     | _ => true
     end.
Proof.
  intros Hget Hsome. unfold isLensMissingBase64Content. rewrite Hget. simpl.
  destruct content as [| |b|n|s|items props|fields]; try reflexivity.
  - simpl. destruct b; reflexivity.
  - simpl. destruct (negb (Qeq_bool n 0)); reflexivity.
  - simpl. destruct (negb (String.eqb s EmptyString)); reflexivity.
  - cbn [truthy isArray negb orb get String.eqb Ascii.eqb Bool.eqb bind].
    rewrite strict_eq_number_length_0, strict_eq_number_length_1.
    destruct items as [|a [|b rest]]; [reflexivity| |].
    + cbn [length Nat.eqb]. change (get (VArr [a] props) "0") with (Ok a).
      cbn [bind]. apply single_item_spec.
    + cbn [length Nat.eqb]. unfold some_data.
      rewrite (Hsome _ _ eq_refl), some_has_data_spec. reflexivity.
Qed.

(** C7: on a parsed document, [isLensMissingBase64Content] returns
    [true] exactly when [content] is absent, not an array, or empty; or
    has exactly one item whose [data] is absent, empty, or not a string;
    or has several items none of which has a non-empty string [data];
    and [false] in every other case. *)
Theorem isLensMissingBase64Content_spec (doc : value) :
  json doc = true -> doc <> VNull ->
  isLensMissingBase64Content doc = Ok (missing_payload doc).
Proof.
  intros Hjson Hnull.
  assert (Hundef : doc <> VUndefined) by (intros ->; discriminate).
  unfold missing_payload.
  apply (missing_of_content doc (content_of doc) (get_content doc Hnull Hundef)).
  intros items props Hc.
  destruct doc as [| |b|n|s|ditems dprops|fields]; simpl in Hc; try discriminate.
  - rewrite (json_array_props _ _ Hjson) in Hc. discriminate.
  - destruct (own "content" fields) as [c|] eqn:Hown; simpl in Hc; [|discriminate].
    subst c. simpl in Hjson.
    rewrite (json_array_props _ _ (own_json _ _ _ Hjson Hown)). reflexivity.
Qed.

Lemma isLensMissingBase64Content_spec_witness :
  isLensMissingBase64Content Docs.two_items = Ok true.
Proof.
  apply (isLensMissingBase64Content_spec Docs.two_items); [reflexivity|discriminate].
Defined.

(** ** Properties of the splice *)

Lemma define_define (k : string) (x y : value) (fields : list (string * value)) :
  define k y (define k x fields) = define k y fields.
Proof.
  induction fields as [|[k' v] rest IH]; simpl.
  - rewrite String.eqb_refl. reflexivity.
  - destruct (String.eqb k' k) eqn:E; simpl; rewrite E; [reflexivity|].
    rewrite IH. reflexivity.
Qed.

Lemma set_content (doc c : value) :
  is_reference doc = true -> set_prop doc "content" c = Ok (with_content doc c).
Proof. destruct doc; try discriminate; reflexivity. Qed.

Lemma get_with_content (doc c : value) :
  is_reference doc = true -> get (with_content doc c) "content" = Ok c.
Proof.
  destruct doc; try discriminate; intros _; cbn; rewrite own_define_same; reflexivity.
Qed.

Lemma with_content_twice (doc c c' : value) :
  with_content (with_content doc c) c' = with_content doc c'.
Proof. destruct doc; try reflexivity; simpl; rewrite define_define; reflexivity. Qed.

Lemma with_content_reference (doc c : value) :
  is_reference (with_content doc c) = is_reference doc.
Proof. destruct doc; reflexivity. Qed.

Lemma get_content_reference (doc : value) :
  is_reference doc = true -> get doc "content" = Ok (content_of doc).
Proof. destruct doc; try discriminate; reflexivity. Qed.

(** The splice on an object or an array, with the three writes of
    [content] merged into the last one. *)
Lemma splice_reference (jsonData : value) (base64Content : string) :
  is_reference jsonData = true ->
  splice jsonData base64Content =
  (let c := content_of jsonData in
   let c1 := if truthy c then c else VArr [] [] in
   len <- get c1 "length" ;;
   c2 <- (if strict_eq_number len 0 then push c1 (VObj []) else Ok c1) ;;
   first <- get c2 "0" ;;
   first' <- set_prop first "data" (VStr base64Content) ;;
   Ok (with_content jsonData (store_first c2 first'))).
Proof.
  intros Href. unfold splice.
  rewrite (get_content_reference _ Href). cbn [bind].
  set (c1 := if truthy (content_of jsonData) then content_of jsonData else VArr [] []).
  rewrite (set_content _ c1 Href). cbn [bind].
  rewrite (get_with_content _ c1 Href). cbn [bind].
  destruct (get c1 "length") as [len|]; [cbn [bind]|reflexivity].
  destruct (strict_eq_number len 0).
  - destruct (push c1 (VObj [])) as [c2|]; [cbn [bind]|reflexivity].
    rewrite set_content by (rewrite with_content_reference; exact Href). cbn [bind].
    rewrite get_with_content by (rewrite with_content_reference; exact Href). cbn [bind].
    destruct (get c2 "0") as [first|]; [cbn [bind]|reflexivity].
    destruct (set_prop first "data" (VStr base64Content)) as [first'|]; [cbn [bind]|reflexivity].
    rewrite set_content by (rewrite !with_content_reference; exact Href).
    rewrite !with_content_twice. reflexivity.
  - cbn [bind]. rewrite (get_with_content _ c1 Href). cbn [bind].
    destruct (get c1 "0") as [first|]; [cbn [bind]|reflexivity].
    destruct (set_prop first "data" (VStr base64Content)) as [first'|]; [cbn [bind]|reflexivity].
    rewrite set_content by (rewrite with_content_reference; exact Href).
    rewrite with_content_twice. reflexivity.
Qed.

(** A write of [data] to an object or an array is read back. *)
Lemma set_data_reference (first : value) (x : value) :
  is_reference first = true ->
  exists first', set_prop first "data" x = Ok first'
                 /\ is_reference first' = true
                 /\ get first' "data" = Ok x.
Proof.
  destruct first; try discriminate; intros _; eexists; (split; [reflexivity|]);
    (split; [reflexivity|]); cbn; rewrite own_define_same; reflexivity.
Qed.

Lemma falsy_no_items (c : value) : truthy c = false -> items_of c = [].
Proof. destruct c; simpl; try discriminate; reflexivity. Qed.

(** C9, on the domain where the splice writes: for every parsed document
    whose [content] is absent or falsy, or an array whose first element,
    when there is one, is an object or an array, after the splice
    [content] is an array whose first element's [data] is the payload; a
    single element, empty but for the payload, is there when [content]
    was empty or absent; and every element after the first is
    unchanged. *)
Theorem splice_spliceable (doc : value) (base64Content : string) :
  json doc = true -> is_reference doc = true ->
  spliceable (content_of doc) = true ->
  exists after, splice doc base64Content = Ok after
                /\ splice_post doc after base64Content.
Proof.
  intros Hjson Href Hok. rewrite (splice_reference _ _ Href). cbv zeta.
  assert (Hprops : forall items props, content_of doc = VArr items props -> props = []).
  { intros items props Hc. destruct doc; try discriminate; simpl in Hc.
    - rewrite (json_array_props _ _ Hjson) in Hc. discriminate.
    - destruct (own "content" fields) as [c|] eqn:Hown; simpl in Hc; [|discriminate].
      subst c. simpl in Hjson. exact (json_array_props _ _ (own_json _ _ _ Hjson Hown)). }
  unfold splice_post.
  destruct (truthy (content_of doc)) eqn:Ht.
  - destruct (content_of doc) as [| |b|n|s|items props|fields] eqn:Hc;
      simpl in Ht, Hok; try discriminate; try (rewrite Ht in Hok; discriminate).
    rewrite (Hprops _ _ eq_refl) in *.
    destruct items as [|first rest].
    + cbn. eexists. split; [reflexivity|].
      rewrite (get_with_content _ _ Href).
      exists [VObj [("data", VStr base64Content)]], [].
      repeat split; eauto. congruence.
    + destruct (set_data_reference first (VStr base64Content) Hok)
        as (first' & Hset & _ & Hdata).
      cbn [get String.eqb Ascii.eqb Bool.eqb bind].
      rewrite strict_eq_number_length_0. cbn [length Nat.eqb bind].
      change (get (VArr (first :: rest) []) "0") with (Ok first). cbn [bind].
      rewrite Hset. cbn [bind]. eexists. split; [reflexivity|].
      rewrite (get_with_content _ _ Href).
      exists (first' :: rest), []. cbn.
      repeat split; eauto. discriminate.
  - cbn. eexists. split; [reflexivity|].
    rewrite (get_with_content _ _ Href).
    exists [VObj [("data", VStr base64Content)]], [].
    rewrite (falsy_no_items _ Ht).
    repeat split; eauto. congruence.
Qed.

Lemma splice_spliceable_witness :
  exists after, splice Sibling.document getDefaultEnhanceBase64 = Ok after
                /\ splice_post Sibling.document after getDefaultEnhanceBase64.
Proof.
  apply (splice_spliceable Sibling.document getDefaultEnhanceBase64); reflexivity.
Defined.

(** C9, as stated, fails on a document whose [content] is the string
    ["abc"], and on one whose [content] is [[5]]: each passes the test
    that leads to the splice, the splice returns, and the document is
    what it was, without the payload. *)
Lemma splice_string_content :
  (validateFHIRLens Docs.string_content =
     Ok {| isValid := false; errors := [msg_content_array] |}
   /\ payloadOnly {| isValid := false; errors := [msg_content_array] |}
                  Docs.string_content = Ok true
   /\ splice Docs.string_content getDefaultEnhanceBase64 = Ok Docs.string_content
   /\ ~ splice_post Docs.string_content Docs.string_content getDefaultEnhanceBase64)
  /\ (validateFHIRLens Docs.number_item =
        Ok {| isValid := false; errors := [msg_content_data] |}
      /\ payloadOnly {| isValid := false; errors := [msg_content_data] |}
                     Docs.number_item = Ok true
      /\ splice Docs.number_item getDefaultEnhanceBase64 = Ok Docs.number_item
      /\ ~ splice_post Docs.number_item Docs.number_item getDefaultEnhanceBase64).
Proof.
  repeat split; try reflexivity.
  - intros (items & props & Hget & _). vm_compute in Hget. discriminate.
  - intros (items & props & Hget & (first & Hhead & Hdata) & _).
    vm_compute in Hget. injection Hget as <- <-.
    injection Hhead as <-. vm_compute in Hdata. discriminate.
Qed.

(** ** Properties of the pipeline *)

Lemma makeEntry_ok (jsonData : value) (filePath : string)
    (enhanceFile enhanceSource' : option string) (entry : lensEntry) :
  makeEntry jsonData filePath enhanceFile enhanceSource' = Ok entry ->
  lens entry = jsonData
  /\ enhancedWithJs entry = (if path_truthy enhanceFile then enhanceFile else None)
  /\ enhanceSource entry = enhanceSource'
  /\ lens_path entry = filePath.
Proof.
  unfold makeEntry.
  destruct (get jsonData "id"); [cbn [bind]|discriminate].
  destruct (get jsonData "name"); [cbn [bind]|discriminate].
  destruct (get jsonData "url"); [cbn [bind]|discriminate].
  destruct (get jsonData "version"); [cbn [bind]|discriminate].
  destruct (get jsonData "status"); [cbn [bind]|discriminate].
  intros [= <-]. repeat split.
Qed.

(** What an entry pushed by the enhancement branch went through. *)
Lemma enhanceLens_some (h : host) (enhanceFiles : enhance_index)
    (filePath : string) (jsonData : value) (entry : lensEntry) :
  enhanceLens h enhanceFiles filePath jsonData = Ok (Some entry) ->
  exists after revalidation,
    splice jsonData (resolveEnhance h enhanceFiles filePath).1.1 = Ok after
    /\ validateFHIRLens after = Ok revalidation
    /\ isValid revalidation = true
    /\ makeEntry after filePath (resolveEnhance h enhanceFiles filePath).1.2
         (Some (resolveEnhance h enhanceFiles filePath).2) = Ok entry.
Proof.
  unfold enhanceLens.
  destruct (get jsonData "id") as [id|]; [cbn [bind]|discriminate].
  destruct (interpolate id); [cbn [bind]|discriminate].
  destruct (resolveEnhance h enhanceFiles filePath) as [[payload script] source].
  cbn [fst snd].
  destruct (splice jsonData payload) as [after|]; [cbn [bind try_catch]|discriminate].
  destruct (validateFHIRLens after) as [revalidation|] eqn:Hre;
    [cbn [bind try_catch]|discriminate].
  destruct (isValid revalidation) eqn:Hvalid; [|discriminate].
  destruct (makeEntry after filePath script (Some source)) as [e|] eqn:He;
    [cbn [bind try_catch]|discriminate].
  intros [= <-]. exists after, revalidation. auto.
Qed.

(** The two ways a file yields an entry. *)
Lemma processFile_some (h : host) (enhanceFiles : enhance_index)
    (filePath : string) (entry : lensEntry) :
  processFile h enhanceFiles filePath = Ok (Some entry) ->
  exists text jsonData validation,
    readFileSync h filePath = Ok text
    /\ JSON_parse h text = Ok jsonData
    /\ validateFHIRLens jsonData = Ok validation
    /\ ((isValid validation = true
         /\ makeEntry jsonData filePath None None = Ok entry)
        \/ (isValid validation = false
            /\ payloadOnly validation jsonData = Ok true
            /\ enhanceLens h enhanceFiles filePath jsonData = Ok (Some entry))).
Proof.
  unfold processFile.
  destruct (readFileSync h filePath) as [text|] eqn:Hread; [cbn [bind]|discriminate].
  destruct (JSON_parse h text) as [jsonData|] eqn:Hparse; [cbn [bind]|discriminate].
  destruct (validateFHIRLens jsonData) as [validation|] eqn:Hval;
    [cbn [bind]|discriminate].
  intros H. exists text, jsonData, validation.
  do 3 (split; [reflexivity || assumption|]).
  destruct (isValid validation).
  - left. split; [reflexivity|].
    destruct (get jsonData "id") as [id|]; [cbn [bind] in H|discriminate].
    destruct (interpolate id); [cbn [bind] in H|discriminate].
    destruct (makeEntry jsonData filePath None None); [|discriminate].
    cbn [bind] in H. congruence.
  - right. split; [reflexivity|].
    destruct (payloadOnly validation jsonData) as [[|]|]; cbn [bind] in H;
      try discriminate. auto.
Qed.

Lemma processFile_valid (h : host) (enhanceFiles : enhance_index)
    (filePath : string) (entry : lensEntry) :
  processFile h enhanceFiles filePath = Ok (Some entry) ->
  validateFHIRLens (lens entry) = Ok {| isValid := true; errors := [] |}.
Proof.
  intros (text & jsonData & validation & _ & _ & Hval & [[Hok He]|(_ & _ & He)])%processFile_some.
  - apply makeEntry_ok in He as (-> & _). rewrite Hval. f_equal.
    exact (validateFHIRLens_valid_no_errors _ _ Hval Hok).
  - apply enhanceLens_some in He as (after & revalidation & _ & Hre & Hok & He).
    apply makeEntry_ok in He as (-> & _). rewrite Hre. f_equal.
    exact (validateFHIRLens_valid_no_errors _ _ Hre Hok).
Qed.

(** The loop appends the contributions of the files, in order. *)
Lemma fold_visitFile (h : host) (enhanceFiles : enhance_index)
    (lensFiles : list string) (validLenses : list lensEntry) :
  fold_left (visitFile h enhanceFiles) lensFiles validLenses =
  validLenses ++ flat_map (contribution h enhanceFiles) lensFiles.
Proof.
  revert validLenses. induction lensFiles as [|filePath rest IH]; intros validLenses.
  - simpl. rewrite app_nil_r. reflexivity.
  - cbn [fold_left flat_map]. rewrite IH. unfold visitFile, contribution.
    destruct (processFile h enhanceFiles filePath) as [[e|]|];
      [rewrite <- app_assoc|..]; reflexivity.
Qed.

Lemma discoverLenses_ok (h : host) (tree : node) (lensFilePath : string)
    (entries : list lensEntry) :
  discoverLenses h tree lensFilePath = Ok entries ->
  exists lensFiles enhanceFiles,
    findJsonFiles h tree lensFilePath = Ok lensFiles
    /\ findEnhanceFiles h tree lensFilePath = Ok enhanceFiles
    /\ entries = flat_map (contribution h enhanceFiles) lensFiles.
Proof.
  unfold discoverLenses.
  destruct (findJsonFiles h tree lensFilePath) as [lensFiles|]; [cbn [bind]|discriminate].
  destruct (findEnhanceFiles h tree lensFilePath) as [enhanceFiles|];
    [cbn [bind]|discriminate].
  intros [= <-]. exists lensFiles, enhanceFiles. rewrite fold_visitFile. auto.
Qed.

(** C2: every element of the sequence returned by [discoverLenses]
    carries in [lens] a document on which [validateFHIRLens] returns
    [isValid = true] and no message. *)
Theorem discoverLenses_all_valid (h : host) (tree : node) (lensFilePath : string)
    (entries : list lensEntry) (entry : lensEntry) :
  discoverLenses h tree lensFilePath = Ok entries ->
  In entry entries ->
  validateFHIRLens (lens entry) = Ok {| isValid := true; errors := [] |}.
Proof.
  intros (lensFiles & enhanceFiles & _ & _ & ->)%discoverLenses_ok Hin.
  apply in_flat_map in Hin as (filePath & _ & Hin).
  unfold contribution in Hin.
  destruct (processFile h enhanceFiles filePath) as [[e|]|] eqn:Hp;
    simpl in Hin; try contradiction.
  destruct Hin as [<-|[]]. exact (processFile_valid _ _ _ _ Hp).
Qed.

Lemma discoverLenses_all_valid_witness :
  validateFHIRLens Sibling.enhanced = Ok {| isValid := true; errors := [] |}.
Proof.
  apply (discoverLenses_all_valid Sibling.h Sibling.tree "lenses"
           [Sibling.entry] Sibling.entry).
  - vm_compute. reflexivity.
  - left. reflexivity.
Defined.

(** ** Properties of the directory walk *)

(** Induction on a tree, with the hypothesis for every entry of a
    directory. *)
Lemma node_forall_ind (P : node -> Prop) :
  P File ->
  (forall files, Forall (fun entry : string * node => P entry.2) files -> P (Dir files)) ->
  P Unlistable -> P Unstatable ->
  forall n, P n.
Proof.
  intros HFile HDir HUl HUs. fix IH 1. intros [|files| |]; try assumption.
  apply HDir. revert files. fix IHfiles 1. intros [|entry rest].
  - constructor.
  - constructor; [apply IH | apply IHfiles].
Qed.

(** A loop whose body throws an I/O error exactly on the items that are
    not [ok] returns exactly when all items are. *)
Lemma for_each_walk {A S} (body : A -> S -> result S) (ok : A -> bool) (xs : list A) :
  (forall x, In x xs -> forall s,
      if ok x then exists s', body x s = Ok s' else body x s = Throw IOError) ->
  forall s, if forallb ok xs then exists s', for_each body xs s = Ok s'
            else for_each body xs s = Throw IOError.
Proof.
  induction xs as [|x rest IH]; intros Hbody s.
  - simpl. eauto.
  - cbn [forallb for_each].
    pose proof (Hbody x (or_introl eq_refl) s) as Hx.
    destruct (ok x); cbn [andb].
    + destruct Hx as [s' ->]. cbn [bind].
      apply IH. intros y Hy. apply Hbody. right. exact Hy.
    + rewrite Hx. reflexivity.
Qed.

Lemma traverseJson_walk (h : host) (n : node) :
  forall currentDir jsonFiles,
    if walkable n then exists found, traverseJson h currentDir n jsonFiles = Ok found
    else traverseJson h currentDir n jsonFiles = Throw IOError.
Proof.
  induction n as [|files IH| |] using node_forall_ind; intros currentDir jsonFiles;
    try reflexivity.
  cbn [traverseJson walkable].
  apply (for_each_walk _ entry_ok).
  intros entry Hin s. rewrite List.Forall_forall in IH. specialize (IH entry Hin).
  unfold entry_ok. destruct entry as [file child]. cbn [fst snd] in *.
  destruct child as [|sub| |]; cbn [isDirectory bind].
  - destruct (String.eqb (path_extname h file) ".json"); eauto.
  - apply IH.
  - reflexivity.
  - reflexivity.
Qed.

Lemma traverseEnhance_walk (h : host) (n : node) :
  forall currentDir enhanceFiles,
    if walkable n then exists found, traverseEnhance h currentDir n enhanceFiles = Ok found
    else traverseEnhance h currentDir n enhanceFiles = Throw IOError.
Proof.
  induction n as [|files IH| |] using node_forall_ind; intros currentDir enhanceFiles;
    try reflexivity.
  cbn [traverseEnhance walkable].
  match goal with
  | |- context [for_each ?body files ?s] =>
      pose proof (for_each_walk body entry_ok files) as Hloop;
      specialize (fun H => Hloop H s)
  end.
  match type of Hloop with
  | ?Hyp -> _ => assert (Hbody : Hyp); [|specialize (Hloop Hbody)]
  end.
  { intros entry Hin st. rewrite List.Forall_forall in IH. specialize (IH entry Hin).
    unfold entry_ok. destruct entry as [file child]. cbn [fst snd] in *.
    destruct child as [|sub| |]; cbn [isDirectory bind].
    - destruct (String.eqb (path_extname h file) ".js"); eauto.
    - specialize (IH (path_join h currentDir file) st.1).
      destruct (walkable (Dir sub)).
      + destruct IH as [found ->]. cbn [bind]. eauto.
      + rewrite IH. reflexivity.
    - reflexivity.
    - reflexivity. }
  change (forallb _ files) with (forallb entry_ok files).
  destruct (forallb entry_ok files).
  - destruct Hloop as [st ->]. cbn [bind].
    destruct (0 <? length st.2)%nat; eauto.
  - rewrite Hloop. reflexivity.
Qed.

(** Both scans walk the same tree: they return together. *)
Lemma scans_agree (h : host) (tree : node) (dir : string) :
  if walkable tree
  then (exists lensFiles, findJsonFiles h tree dir = Ok lensFiles)
       /\ (exists enhanceFiles, findEnhanceFiles h tree dir = Ok enhanceFiles)
  else findJsonFiles h tree dir = Throw IOError
       /\ findEnhanceFiles h tree dir = Throw IOError.
Proof.
  unfold findJsonFiles, findEnhanceFiles.
  pose proof (traverseJson_walk h tree dir []) as HJ.
  pose proof (traverseEnhance_walk h tree dir {| exact := ∅; fallback := ∅ |}) as HE.
  destruct (walkable tree); auto.
Qed.

Lemma contribution_length (h : host) (enhanceFiles : enhance_index) (filePath : string) :
  length (contribution h enhanceFiles filePath) <= 1.
Proof.
  unfold contribution.
  destruct (processFile h enhanceFiles filePath) as [[e|]|]; simpl; lia.
Qed.

(** C5: [discoverLenses] throws if and only if the directory walk fails
    (the root or a directory under it cannot be listed, or an entry
    cannot be examined); when the walk succeeds the output is, file by
    file and in order, what each document file contributes, which is one
    entry or nothing, and nothing for a file that cannot be read or
    parsed. *)
Theorem discoverLenses_throws_iff_walk_fails (h : host) (tree : node)
    (lensFilePath : string) :
  (forall e, discoverLenses h tree lensFilePath = Throw e <->
             findJsonFiles h tree lensFilePath = Throw e)
  /\ (walkable tree = false <-> exists e, discoverLenses h tree lensFilePath = Throw e)
  /\ (forall lensFiles,
        findJsonFiles h tree lensFilePath = Ok lensFiles ->
        exists enhanceFiles,
          findEnhanceFiles h tree lensFilePath = Ok enhanceFiles
          /\ discoverLenses h tree lensFilePath =
             Ok (flat_map (contribution h enhanceFiles) lensFiles)
          /\ forall filePath,
               length (contribution h enhanceFiles filePath) <= 1
               /\ (throws (readFileSync h filePath) = true ->
                   contribution h enhanceFiles filePath = [])
               /\ (forall text, readFileSync h filePath = Ok text ->
                                throws (JSON_parse h text) = true ->
                                contribution h enhanceFiles filePath = [])).
Proof.
  pose proof (scans_agree h tree lensFilePath) as Hscan.
  unfold discoverLenses.
  destruct (walkable tree).
  - destruct Hscan as [[lensFiles HJ] [enhanceFiles HE]]. rewrite HJ, HE. cbn [bind].
    split; [|split].
    + intros e. split; discriminate.
    + split; [discriminate|]. intros [e He]. discriminate.
    + intros ? [= <-]. exists enhanceFiles. split; [reflexivity|].
      split; [rewrite fold_visitFile; reflexivity|].
      intros filePath. split; [apply contribution_length|].
      unfold contribution, processFile. split.
      * destruct (readFileSync h filePath); [discriminate|reflexivity].
      * intros text -> Hparse. cbn [bind].
        destruct (JSON_parse h text); [discriminate|reflexivity].
  - destruct Hscan as [HJ HE]. rewrite HJ. cbn [bind].
    split; [|split].
    + intros e. split; intros [= <-]; reflexivity.
    + split; eauto.
    + discriminate.
Qed.

Example marked_scan :
  findEnhanceFiles Marked.h Sibling.tree "lenses" = Ok Marked.index
  /\ discoverLenses Marked.h Sibling.tree "lenses" = Ok [Marked.entry].
Proof. split; vm_compute; reflexivity. Qed.

(** ** Properties of the enhancement branch *)

Lemma filter_nil_head {A} (f : A -> bool) (l : list A) (a : A) :
  List.filter f l = [] -> head l = Some a -> f a = false.
Proof.
  destruct l as [|x rest]; simpl; [discriminate|].
  intros H [= ->]. destruct (f a); [discriminate|reflexivity].
Qed.

(** The checks of an object or an array, with the reads done. *)
Lemma validateFHIRLens_reference (lens : value) :
  is_reference lens = true ->
  exists pre,
    List.filter (fun e => includes e "content") pre = []
    /\ validateFHIRLens lens =
       (errs <- (if negb (isArray (content_of lens))
                 then Ok (pre ++ [msg_content_array])
                 else
                   found <- hasBase64Content (items_of (content_of lens)) ;;
                   Ok (push_if (negb found) msg_content_data pre)) ;;
        Ok {| isValid := Nat.eqb (length errs) 0; errors := errs |}).
Proof.
  intros Href.
  assert (Ht : truthy lens = true) by (destruct lens; try discriminate; reflexivity).
  assert (Ho : String.eqb (typeof lens) "object" = true)
    by (destruct lens; try discriminate; reflexivity).
  unfold validateFHIRLens. rewrite Ht, Ho. cbn [negb orb].
  destruct (get_object lens "resourceType" Ht Ho) as [resourceType ->].
  destruct (get_object lens "url" Ht Ho) as [url ->].
  destruct (get_object lens "name" Ht Ho) as [name ->].
  destruct (get_object lens "status" Ht Ho) as [status ->].
  rewrite (get_content_reference _ Href). cbn [bind].
  eexists. split; [|reflexivity].
  apply push_if_fields.
Qed.

(** A document that validates has an array [content] with a payload. *)
Lemma valid_content (lens : value) (v : validation) :
  validateFHIRLens lens = Ok v -> isValid v = true ->
  is_reference lens = true
  /\ exists items props, content_of lens = VArr items props
                         /\ hasBase64Content items = Ok true.
Proof.
  intros Hval Hok.
  assert (Href : is_reference lens = true).
  { destruct (is_reference lens) eqn:Href; [reflexivity|].
    rewrite (validateFHIRLens_primitive _ Href) in Hval.
    injection Hval as <-. discriminate. }
  split; [exact Href|].
  destruct (validateFHIRLens_reference lens Href) as (pre & _ & Heq).
  rewrite Heq in Hval. clear Heq.
  destruct (content_of lens) as [| |b|n|s|items props|fields]; cbn in Hval;
    try (injection Hval as <-; simpl in Hok; rewrite length_app in Hok;
         simpl in Hok; rewrite Nat.add_1_r in Hok; discriminate).
  destruct (hasBase64Content items) as [[|]|] eqn:Hfound; cbn in Hval;
    try discriminate.
  - eauto.
  - injection Hval as <-. simpl in Hok. rewrite length_app in Hok.
    simpl in Hok. rewrite Nat.add_1_r in Hok. discriminate.
Qed.

(** A document that passes the gate is an object or an array, and if its
    [content] is an array no item of it has a payload. *)
Lemma gate_content (jsonData : value) (v : validation) :
  validateFHIRLens jsonData = Ok v -> payloadOnly v jsonData = Ok true ->
  is_reference jsonData = true
  /\ forall items props, content_of jsonData = VArr items props ->
                         hasBase64Content items = Ok false.
Proof.
  intros Hval Hgate.
  assert (Href : is_reference jsonData = true).
  { destruct (is_reference jsonData) eqn:Href; [reflexivity|].
    rewrite (validateFHIRLens_primitive _ Href) in Hval.
    injection Hval as <-. vm_compute in Hgate. discriminate. }
  split; [exact Href|]. intros items props Hc.
  destruct (validateFHIRLens_reference jsonData Href) as (pre & Hpre & Heq).
  rewrite Heq, Hc in Hval. clear Heq. cbn in Hval.
  destruct (hasBase64Content items) as [[|]|]; cbn in Hval; try discriminate;
    [|reflexivity].
  injection Hval as <-. exfalso. unfold payloadOnly in Hgate. cbn in Hgate.
  destruct (head pre) as [e|] eqn:Hhead.
  - rewrite (filter_nil_head _ _ _ Hpre Hhead), andb_false_r in Hgate. discriminate.
  - rewrite andb_false_r in Hgate. discriminate.
Qed.

(** Past the gate, a splice that is followed by a successful
    re-validation has put the payload in [content[0].data]. *)
Lemma enhanced_first_data (jsonData after : value) (v r : validation)
    (base64Content : string) :
  validateFHIRLens jsonData = Ok v -> payloadOnly v jsonData = Ok true ->
  splice jsonData base64Content = Ok after ->
  validateFHIRLens after = Ok r -> isValid r = true ->
  first_data after = Ok (VStr base64Content).
Proof.
  intros Hval Hgate Hsplice Hre Hok.
  destruct (gate_content _ _ Hval Hgate) as [Href Hnone].
  destruct (valid_content _ _ Hre Hok) as (Hrefa & items & props & Hca & Hfound).
  rewrite (splice_reference _ _ Href) in Hsplice. cbv zeta in Hsplice.
  set (c1 := if truthy (content_of jsonData) then content_of jsonData else VArr [] [])
    in Hsplice.
  destruct (get c1 "length") as [len|] eqn:Hlen; [cbn [bind] in Hsplice|discriminate].
  destruct (if strict_eq_number len 0 then push c1 (VObj []) else Ok c1)
    as [c2|] eqn:Hc2; [cbn [bind] in Hsplice|discriminate].
  destruct (get c2 "0") as [first|] eqn:Hfirst; [cbn [bind] in Hsplice|discriminate].
  destruct (set_prop first "data" (VStr base64Content)) as [first'|] eqn:Hset;
    [cbn [bind] in Hsplice|discriminate].
  injection Hsplice as <-.
  pose proof (get_with_content jsonData (store_first c2 first') Href) as Hget.
  rewrite get_content_reference in Hget
    by (rewrite with_content_reference; exact Href).
  injection Hget as Hstore. rewrite Hstore in Hca.
  unfold first_data. rewrite (get_with_content _ _ Href). cbn [bind].
  destruct c2 as [| | | | |items2 props2|]; simpl in Hca; try discriminate.
  injection Hca as <- <-.
  destruct items2 as [|first0 rest].
  { cbn in Hfirst. injection Hfirst as <-. discriminate. }
  cbn in Hfirst. injection Hfirst as ->.
  change (get (VArr (<[0%nat:=first']> (first :: rest)) props2) "0") with (Ok first').
  cbn [bind].
  destruct (is_reference first) eqn:Hrf.
  - destruct (set_data_reference first (VStr base64Content) Hrf) as (f' & Hset' & _ & Hdata).
    rewrite Hset in Hset'. injection Hset' as <-. exact Hdata.
  - exfalso.
    assert (first' = first) as ->
      by (destruct first; simpl in Hset, Hrf; try discriminate; congruence).
    cbn in Hfound.
    destruct (strict_eq_number len 0) eqn:Hz.
    + destruct c1 as [| | | | |items1 props1|]; simpl in Hc2; try discriminate.
      destruct (own "push" props1); [discriminate|].
      injection Hc2 as Hitems _.
      cbn in Hlen. injection Hlen as <-.
      rewrite strict_eq_number_length_0 in Hz.
      destruct items1; [|discriminate]. simpl in Hitems.
      injection Hitems as <- _. discriminate.
    + injection Hc2 as Hc1. subst c1.
      destruct (truthy (content_of jsonData)); [|discriminate].
      pose proof (Hnone _ _ Hc1) as Hn. cbn in Hn. rewrite Hn in Hfound.
      discriminate.
Qed.

(** The resolution, case by case. *)
Lemma resolve_exact (h : host) (enhanceFiles : enhance_index) (filePath js b : string) :
  exact enhanceFiles !! filePath = Some js -> js <> EmptyString ->
  jsToBase64 h js = Ok b ->
  resolveEnhance h enhanceFiles filePath = (b, Some js, "exact-match").
Proof.
  intros He Hjs Hb. unfold resolveEnhance. rewrite He.
  assert (Ht : path_truthy (Some js) = true)
    by (simpl; destruct (String.eqb_spec js EmptyString); [contradiction|reflexivity]).
  rewrite Ht. cbn [negb fst snd from_option id]. rewrite Ht. cbn [from_option id]. rewrite Hb. reflexivity.
Qed.

Lemma unregistered_falsy (o : option string) :
  unregistered o -> path_truthy o = false.
Proof. intros [->| ->]; reflexivity. Qed.

Lemma resolve_fallback (h : host) (enhanceFiles : enhance_index)
    (filePath js b : string) (rest : list string) :
  unregistered (exact enhanceFiles !! filePath) ->
  fallback enhanceFiles !! path_dirname h filePath = Some (js :: rest) ->
  js <> EmptyString -> jsToBase64 h js = Ok b ->
  resolveEnhance h enhanceFiles filePath = (b, Some js, "fallback").
Proof.
  intros Hu Hf Hjs Hb. unfold resolveEnhance.
  rewrite (unregistered_falsy _ Hu), Hf. cbn [negb length Nat.ltb Nat.leb head fst snd].
  assert (Ht : path_truthy (Some js) = true)
    by (simpl; destruct (String.eqb_spec js EmptyString); [contradiction|reflexivity]).
  rewrite Ht. cbn [from_option id]. rewrite Hb. reflexivity.
Qed.

Lemma resolve_none (h : host) (enhanceFiles : enhance_index) (filePath : string) :
  unregistered (exact enhanceFiles !! filePath) ->
  fallback enhanceFiles !! path_dirname h filePath = None
  \/ fallback enhanceFiles !! path_dirname h filePath = Some [] ->
  exists script,
    resolveEnhance h enhanceFiles filePath = (getDefaultEnhanceBase64, script, "default")
    /\ path_truthy script = false.
Proof.
  intros Hu Hf. unfold resolveEnhance.
  pose proof (unregistered_falsy _ Hu) as Hfalsy. rewrite Hfalsy.
  destruct Hf as [-> | ->]; cbn [negb length Nat.ltb Nat.leb fst snd];
    rewrite Hfalsy; eauto.
Qed.

Lemma resolve_unreadable (h : host) (enhanceFiles : enhance_index)
    (filePath js : string) (e : error) :
  (exact enhanceFiles !! filePath = Some js /\ js <> EmptyString)
  \/ (unregistered (exact enhanceFiles !! filePath)
      /\ exists rest, fallback enhanceFiles !! path_dirname h filePath = Some (js :: rest)) ->
  jsToBase64 h js = Throw e ->
  exists script,
    resolveEnhance h enhanceFiles filePath = (getDefaultEnhanceBase64, script, "default")
    /\ path_truthy script = false.
Proof.
  intros Hres Hb. unfold resolveEnhance.
  destruct Hres as [[He Hjs] | [Hu [rest Hf]]].
  - rewrite He.
    assert (Ht : path_truthy (Some js) = true)
      by (simpl; destruct (String.eqb_spec js EmptyString); [contradiction|reflexivity]).
    rewrite Ht. cbn [negb fst snd from_option id]. rewrite Ht. cbn [from_option id]. rewrite Hb. eauto.
  - rewrite (unregistered_falsy _ Hu), Hf.
    cbn [negb length Nat.ltb Nat.leb head fst snd].
    destruct (path_truthy (Some js)) eqn:Ht; cbn [from_option id].
    + rewrite Hb. eauto.
    + eauto.
Qed.

(** What the entry of an enhanced document records. *)
Lemma enhanced_entry (h : host) (enhanceFiles : enhance_index)
    (filePath text : string) (jsonData : value) (validation : validation)
    (entry : lensEntry) :
  readFileSync h filePath = Ok text ->
  JSON_parse h text = Ok jsonData ->
  validateFHIRLens jsonData = Ok validation ->
  isValid validation = false ->
  processFile h enhanceFiles filePath = Ok (Some entry) ->
  let r := resolveEnhance h enhanceFiles filePath in
  first_data (lens entry) = Ok (VStr r.1.1)
  /\ enhancedWithJs entry = (if path_truthy r.1.2 then r.1.2 else None)
  /\ enhanceSource entry = Some r.2.
Proof.
  intros Hread Hparse Hval Hinvalid
    (text' & jsonData' & validation' & Hread' & Hparse' & Hval' & Hcases)%processFile_some.
  rewrite Hread in Hread'. injection Hread' as <-.
  rewrite Hparse in Hparse'. injection Hparse' as <-.
  rewrite Hval in Hval'. injection Hval' as <-.
  destruct Hcases as [[Hok _]|(_ & Hgate & He)]; [congruence|].
  apply enhanceLens_some in He as (after & revalidation & Hsplice & Hre & Hok & He).
  apply makeEntry_ok in He as (-> & -> & -> & _).
  cbv zeta. split; [|split; reflexivity].
  exact (enhanced_first_data _ _ _ _ _ Hval Hgate Hsplice Hre Hok).
Qed.

(** C6: for a document that went through the enhancement step, the
    payload in [content[0].data], the script in [enhancedWithJs] and the
    tag in [enhanceSource] follow the precedence: the script registered
    for the document's own path, tagged "exact-match"; else the first
    script registered for the document's directory, tagged "fallback";
    else the default payload, tagged "default"; and when the chosen
    script cannot be read, the default payload, tagged "default", with
    no script in the entry. *)
Theorem enhancement_precedence (h : host) (enhanceFiles : enhance_index)
    (filePath text : string) (jsonData : value) (validation : validation)
    (entry : lensEntry) :
  readFileSync h filePath = Ok text ->
  JSON_parse h text = Ok jsonData ->
  validateFHIRLens jsonData = Ok validation ->
  isValid validation = false ->
  processFile h enhanceFiles filePath = Ok (Some entry) ->
  (forall js b,
      exact enhanceFiles !! filePath = Some js -> js <> EmptyString ->
      jsToBase64 h js = Ok b ->
      first_data (lens entry) = Ok (VStr b)
      /\ enhancedWithJs entry = Some js
      /\ enhanceSource entry = Some "exact-match")
  /\ (forall js rest b,
        unregistered (exact enhanceFiles !! filePath) ->
        fallback enhanceFiles !! path_dirname h filePath = Some (js :: rest) ->
        js <> EmptyString -> jsToBase64 h js = Ok b ->
        first_data (lens entry) = Ok (VStr b)
        /\ enhancedWithJs entry = Some js
        /\ enhanceSource entry = Some "fallback")
  /\ (unregistered (exact enhanceFiles !! filePath) ->
      fallback enhanceFiles !! path_dirname h filePath = None
      \/ fallback enhanceFiles !! path_dirname h filePath = Some [] ->
      first_data (lens entry) = Ok (VStr getDefaultEnhanceBase64)
      /\ enhancedWithJs entry = None
      /\ enhanceSource entry = Some "default")
  /\ (forall js e,
        (exact enhanceFiles !! filePath = Some js /\ js <> EmptyString)
        \/ (unregistered (exact enhanceFiles !! filePath)
            /\ exists rest,
                 fallback enhanceFiles !! path_dirname h filePath = Some (js :: rest)) ->
        jsToBase64 h js = Throw e ->
        first_data (lens entry) = Ok (VStr getDefaultEnhanceBase64)
        /\ enhancedWithJs entry = None
        /\ enhanceSource entry = Some "default").
Proof.
  intros Hread Hparse Hval Hinvalid Hentry.
  destruct (enhanced_entry _ _ _ _ _ _ _ Hread Hparse Hval Hinvalid Hentry)
    as (Hdata & Hscript & Hsource).
  rewrite Hdata, Hscript, Hsource. clear Hdata Hscript Hsource.
  split; [|split; [|split]].
  - intros js b He Hjs Hb. rewrite (resolve_exact _ _ _ _ _ He Hjs Hb).
    cbn [fst snd path_truthy].
    destruct (String.eqb_spec js EmptyString); [contradiction|]. auto.
  - intros js rest b Hu Hf Hjs Hb.
    rewrite (resolve_fallback _ _ _ _ _ _ Hu Hf Hjs Hb).
    cbn [fst snd path_truthy].
    destruct (String.eqb_spec js EmptyString); [contradiction|]. auto.
  - intros Hu Hf. destruct (resolve_none _ _ _ Hu Hf) as (script & -> & Hfalsy).
    cbn [fst snd]. rewrite Hfalsy. auto.
  - intros js e Hres Hb.
    destruct (resolve_unreadable _ _ _ _ _ Hres Hb) as (script & -> & Hfalsy).
    cbn [fst snd]. rewrite Hfalsy. auto.
Qed.

Lemma enhancement_precedence_witness :
  first_data (lens Marked.entry) = Ok (VStr (base64_encode Marked.script))
  /\ enhancedWithJs Marked.entry = Some "lenses/x.js"
  /\ enhanceSource Marked.entry = Some "exact-match".
Proof.
  refine (proj1 (enhancement_precedence Marked.h Marked.index "lenses/x.json"
                   Sibling.text Sibling.document
                   {| isValid := false; errors := [msg_content_data] |}
                   Marked.entry _ _ _ _ _)
            "lenses/x.js" (base64_encode Marked.script) _ _ _);
    first [discriminate | vm_compute; reflexivity].
Defined.

(** ** The scenario of the sibling script *)

(** C1, on the code: with the document of the scenario in
    [lenses/x.json] and the script [function enhance(d){return d;}] in
    [lenses/x.js], the scanner registers nothing (none of its four
    literal texts occurs in the script), and the one entry returned
    carries the default payload under the tag "default", with no script
    path. *)
Theorem discoverLenses_sibling_script :
  includes Sibling.script "function enhance" = true
  /\ hasEnhance Sibling.script = false
  /\ findEnhanceFiles Sibling.h Sibling.tree "lenses" = Ok {| exact := ∅; fallback := ∅ |}
  /\ discoverLenses Sibling.h Sibling.tree "lenses" = Ok [Sibling.entry]
  /\ enhanceSource Sibling.entry = Some "default"
  /\ enhancedWithJs Sibling.entry = None
  /\ first_data (lens Sibling.entry) = Ok (VStr (base64_encode defaultEnhance))
  /\ base64_decode (base64_encode defaultEnhance) = Some defaultEnhance
  /\ defaultEnhance <> Sibling.script.
Proof.
  repeat split; try (vm_compute; reflexivity).
  vm_compute. discriminate.
Qed.

(* ================================================================== *)
(** * Further properties *)

(** ** The validator, message by message *)

Lemma get_field (doc : value) (k : string) :
  is_reference doc = true -> String.eqb k "length" = false ->
  array_index k = None -> get doc k = Ok (field k doc).
Proof.
  destruct doc; try discriminate; intros _ Hlen Hidx; simpl; [|reflexivity].
  rewrite Hlen, Hidx. reflexivity.
Qed.

Lemma not_a_string_spec (x : value) : not_a_string x = negb (nonempty_string x).
Proof.
  destruct x; try reflexivity; unfold not_a_string; simpl.
  - destruct b; reflexivity.
  - destruct (Qeq_bool n 0); reflexivity.
  - destruct (String.eqb s EmptyString); reflexivity.
Qed.

(** The test of an item in the loop is the test of its payload. *)
Lemma item_test (item : value) :
  nullish item = false ->
  get item "data" = Ok (data_of item)
  /\ truthy (data_of item) && String.eqb (typeof (data_of item)) "string"
     = has_payload item.
Proof.
  intros Hn. split.
  - apply get_data; intros ->; discriminate.
  - unfold has_payload. destruct (data_of item); try reflexivity; simpl.
    + destruct b; reflexivity.
    + destruct (negb (Qeq_bool n 0)); reflexivity.
    + destruct (negb (String.eqb s EmptyString)); reflexivity.
Qed.

Lemma hasBase64Content_first_stop (items : list value) :
  hasBase64Content items =
  match first_stop items with
  | Some item => if nullish item then Throw TypeError else Ok true
  | None => Ok false
  end.
Proof.
  unfold first_stop. induction items as [|item rest IH]; [reflexivity|].
  cbn [hasBase64Content List.find].
  destruct (nullish item) eqn:Hn.
  - cbn [orb]. rewrite Hn. destruct item; try discriminate; reflexivity.
  - destruct (item_test item Hn) as [Hget Htest]. rewrite Hget. cbn [bind orb].
    rewrite Htest. destruct (has_payload item); [rewrite Hn; reflexivity|exact IH].
Qed.

Lemma first_stop_some (items : list value) (item : value) :
  first_stop items = Some item -> nullish item = false ->
  has_payload item = true /\ existsb has_payload items = true.
Proof.
  intros [Hin Hstop]%List.find_some Hn. rewrite Hn in Hstop. cbn [orb] in Hstop.
  split; [exact Hstop|]. apply existsb_exists. eauto.
Qed.

Lemma first_stop_none (items : list value) :
  first_stop items = None -> existsb has_payload items = false.
Proof.
  intros Hnone. destruct (existsb has_payload items) eqn:He; [|reflexivity].
  apply existsb_exists in He as (item & Hin & Hp).
  pose proof (List.find_none _ _ Hnone item Hin) as Hstop. cbn in Hstop.
  rewrite Hp, orb_true_r in Hstop. discriminate.
Qed.

(** The messages before the test of [content], from the fields. *)
Lemma validateFHIRLens_fields (lens : value) :
  is_reference lens = true ->
  validateFHIRLens lens =
  (let pre :=
     push_if (negb (nonempty_string (field "status" lens))) msg_status
       (push_if (negb (nonempty_string (field "name" lens))) msg_name
          (push_if (negb (nonempty_string (field "url" lens))) msg_url
             (push_if (negb (strict_eq_string (field "resourceType" lens) "Library"))
                msg_resourceType []))) in
   errs <- (if negb (isArray (content_of lens))
            then Ok (pre ++ [msg_content_array])
            else
              found <- hasBase64Content (items_of (content_of lens)) ;;
              Ok (push_if (negb found) msg_content_data pre)) ;;
   Ok {| isValid := Nat.eqb (length errs) 0; errors := errs |}).
Proof.
  intros Href.
  assert (Ht : truthy lens = true) by (destruct lens; try discriminate; reflexivity).
  assert (Ho : String.eqb (typeof lens) "object" = true)
    by (destruct lens; try discriminate; reflexivity).
  unfold validateFHIRLens. rewrite Ht, Ho. cbn [negb orb].
  rewrite !(get_field lens) by (reflexivity || exact Href).
  change (field "content" lens) with (content_of lens). cbn [bind].
  rewrite !not_a_string_spec. reflexivity.
Qed.

Lemma errors_of_validation (lens : value) (v : validation) :
  validateFHIRLens lens = Ok v ->
  errors v = (if is_reference lens
              then List.filter (violated lens) all_messages
              else [msg_object])
  /\ isValid v = match errors v with [] => true | _ :: _ => false end.
Proof.
  intros Hval. destruct (is_reference lens) eqn:Href.
  - rewrite (validateFHIRLens_fields _ Href) in Hval. cbv zeta in Hval.
    unfold all_messages, violated.
    set (b1 := negb (strict_eq_string (field "resourceType" lens) "Library")) in *.
    set (b2 := negb (nonempty_string (field "url" lens))) in *.
    set (b3 := negb (nonempty_string (field "name" lens))) in *.
    set (b4 := negb (nonempty_string (field "status" lens))) in *.
    destruct (isArray (content_of lens)) eqn:Harr; cbn [negb] in Hval.
    + rewrite hasBase64Content_first_stop in Hval.
      destruct (first_stop (items_of (content_of lens))) as [item|] eqn:Hstop.
      * destruct (nullish item) eqn:Hn; [discriminate|].
        destruct (first_stop_some _ _ Hstop Hn) as [_ ->].
        cbn [bind] in Hval. injection Hval as <-.
        destruct b1, b2, b3, b4; vm_compute; split; reflexivity.
      * rewrite (first_stop_none _ Hstop).
        cbn [bind] in Hval. injection Hval as <-.
        destruct b1, b2, b3, b4; vm_compute; split; reflexivity.
    + cbn [bind] in Hval. injection Hval as <-.
      destruct b1, b2, b3, b4; vm_compute; split; reflexivity.
  - rewrite (validateFHIRLens_primitive _ Href) in Hval. injection Hval as <-.
    split; reflexivity.
Qed.

(** Whenever the validator returns on an object or an array, its
    messages are the violated ones among the six, in the order of the
    checks, each reported whatever the others; anything else gets the
    single message of the first test. *)
Theorem validateFHIRLens_messages (lens : value) (v : validation) :
  validateFHIRLens lens = Ok v ->
  errors v = (if is_reference lens
              then List.filter (violated lens) all_messages
              else [msg_object])
  /\ isValid v = match errors v with [] => true | _ :: _ => false end.
Proof. apply errors_of_validation. Qed.

Lemma validateFHIRLens_messages_witness :
  errors {| isValid := false;
            errors := [msg_resourceType; msg_url; msg_status; msg_content_array] |}
  = (if is_reference (VObj [("resourceType", VStr "Patient"); ("name", VStr "n")])
     then List.filter
            (violated (VObj [("resourceType", VStr "Patient"); ("name", VStr "n")]))
            all_messages
     else [msg_object])
  /\ isValid {| isValid := false;
                errors := [msg_resourceType; msg_url; msg_status; msg_content_array] |}
     = match errors {| isValid := false;
                       errors := [msg_resourceType; msg_url; msg_status;
                                  msg_content_array] |} with
       | [] => true
       | _ :: _ => false
       end.
Proof.
  apply (validateFHIRLens_messages
           (VObj [("resourceType", VStr "Patient"); ("name", VStr "n")])).
  reflexivity.
Defined.

(** A document is accepted exactly when it is an object (or array) whose
    [resourceType] is "Library", whose [url], [name] and [status] are
    non-empty strings, and whose [content] is an array in which an item
    with a payload comes before any [null] item. *)
Theorem validateFHIRLens_accepts (lens : value) :
  validateFHIRLens lens = Ok {| isValid := true; errors := [] |} <->
  is_reference lens = true
  /\ strict_eq_string (field "resourceType" lens) "Library" = true
  /\ nonempty_string (field "url" lens) = true
  /\ nonempty_string (field "name" lens) = true
  /\ nonempty_string (field "status" lens) = true
  /\ isArray (content_of lens) = true
  /\ exists item, first_stop (items_of (content_of lens)) = Some item
                  /\ nullish item = false.
Proof.
  destruct (is_reference lens) eqn:Href.
  2:{ rewrite (validateFHIRLens_primitive _ Href). split; [discriminate|].
      intros [? _]. discriminate. }
  rewrite (validateFHIRLens_fields _ Href). cbv zeta.
  rewrite hasBase64Content_first_stop.
  split.
  - intros Hval.
    destruct (strict_eq_string (field "resourceType" lens) "Library");
      destruct (nonempty_string (field "url" lens));
      destruct (nonempty_string (field "name" lens));
      destruct (nonempty_string (field "status" lens));
      destruct (isArray (content_of lens));
      cbn [negb push_if bind app] in Hval; try discriminate;
      destruct (first_stop (items_of (content_of lens))) as [item|];
      try discriminate;
      destruct (nullish item) eqn:Hn; cbn in Hval; try discriminate.
    repeat split. eauto.
  - intros (_ & -> & -> & -> & -> & -> & item & -> & ->). reflexivity.
Qed.

(** The validator throws exactly on an object (or array) whose [content]
    is an array in which a [null] (or [undefined]) item comes before any
    item with a payload, and what it throws is a [TypeError]. *)
Theorem validateFHIRLens_throws (lens : value) (e : error) :
  validateFHIRLens lens = Throw e <->
  e = TypeError
  /\ is_reference lens = true
  /\ isArray (content_of lens) = true
  /\ exists bad, first_stop (items_of (content_of lens)) = Some bad
                 /\ nullish bad = true.
Proof.
  destruct (is_reference lens) eqn:Href.
  2:{ rewrite (validateFHIRLens_primitive _ Href). split; [discriminate|].
      intros (_ & ? & _). discriminate. }
  rewrite (validateFHIRLens_fields _ Href). cbv zeta.
  rewrite hasBase64Content_first_stop.
  destruct (isArray (content_of lens)); cbn [negb bind].
  - destruct (first_stop (items_of (content_of lens))) as [item|].
    + destruct (nullish item) eqn:Hn; cbn [bind].
      * split; [intros [= <-]; eauto 6|]. intros (-> & _). reflexivity.
      * split; [discriminate|]. intros (_ & _ & _ & bad & [= <-] & Hbad). congruence.
    + cbn [bind]. split; [discriminate|]. intros (_ & _ & _ & bad & Hbad & _).
      discriminate.
  - split; [discriminate|]. intros (_ & _ & ? & _). discriminate.
Qed.

(** ** The test before the splice *)

(** On a parsed document the missing-payload predicate is true exactly
    when one of the two messages about [content] is violated. *)
Lemma missing_payload_violated (doc : value) :
  missing_payload doc =
  violated doc msg_content_array || violated doc msg_content_data.
Proof.
  unfold missing_payload, violated.
  change (String.eqb msg_content_array msg_resourceType) with false.
  change (String.eqb msg_content_array msg_url) with false.
  change (String.eqb msg_content_array msg_name) with false.
  change (String.eqb msg_content_array msg_status) with false.
  change (String.eqb msg_content_array msg_content_array) with true.
  change (String.eqb msg_content_data msg_resourceType) with false.
  change (String.eqb msg_content_data msg_url) with false.
  change (String.eqb msg_content_data msg_name) with false.
  change (String.eqb msg_content_data msg_status) with false.
  change (String.eqb msg_content_data msg_content_array) with false.
  change (String.eqb msg_content_data msg_content_data) with true.
  cbv iota.
  destruct (content_of doc) as [| | | | |items props|]; try reflexivity.
  cbn [isArray negb orb andb items_of].
  destruct items as [|a [|b rest]]; try reflexivity.
  cbn [existsb]. unfold has_payload. rewrite orb_false_r. reflexivity.
Qed.

Lemma missing_of_json (doc : value) :
  json doc = true -> is_reference doc = true ->
  isLensMissingBase64Content doc = Ok (missing_payload doc).
Proof.
  intros Hjson Href. unfold missing_payload.
  apply (missing_of_content doc (content_of doc) (get_content_reference doc Href)).
  intros items props Hc.
  destruct doc as [| | | | |ditems dprops|fields]; try discriminate; simpl in Hc.
  - rewrite (json_array_props _ _ Hjson) in Hc. discriminate.
  - destruct (own "content" fields) as [c|] eqn:Hown; simpl in Hc; [|discriminate].
    subst c. simpl in Hjson.
    rewrite (json_array_props _ _ (own_json _ _ _ Hjson Hown)). reflexivity.
Qed.

Lemma content_message (m : string) :
  In m all_messages -> includes m "content" = true ->
  m = msg_content_array \/ m = msg_content_data.
Proof.
  unfold all_messages. simpl.
  intros [<-|[<-|[<-|[<-|[<-|[<-|[]]]]]]] H; auto; vm_compute in H; discriminate.
Qed.

(** On a parsed document, the test before the splice is decided by its
    first half: when the validator returned exactly one message and that
    message mentions [content], the missing-payload predicate holds as
    well. *)
Theorem payloadOnly_single_content_error (doc : value) (v : validation) :
  json doc = true -> validateFHIRLens doc = Ok v ->
  payloadOnly v doc =
  Ok (Nat.eqb (length (errors v)) 1
      && match head (errors v) with
         | Some m => includes m "content"
         | None => false
         end).
Proof.
  intros Hjson Hval. unfold payloadOnly.
  destruct (Nat.eqb (length (errors v)) 1
            && match head (errors v) with
               | Some m => includes m "content"
               | None => false
               end) eqn:Hfirst; [|reflexivity].
  apply andb_prop in Hfirst as [Hlen Hhead].
  destruct (errors_of_validation _ _ Hval) as [Herrs _].
  destruct (is_reference doc) eqn:Href.
  - rewrite (missing_of_json _ Hjson Href). f_equal.
    destruct (errors v) as [|m rest] eqn:He; [discriminate|]. cbn in Hhead.
    assert (Hin : In m (List.filter (violated doc) all_messages))
      by (rewrite <- Herrs; left; reflexivity).
    apply filter_In in Hin as [Hin Hviol].
    rewrite missing_payload_violated.
    destruct (content_message m Hin Hhead) as [-> | ->]; rewrite Hviol;
      [reflexivity|apply orb_true_r].
  - rewrite Herrs in Hhead. vm_compute in Hhead. discriminate.
Qed.

Lemma payloadOnly_single_content_error_witness :
  payloadOnly {| isValid := false; errors := [msg_content_data] |} Docs.two_items
  = Ok (Nat.eqb (length (errors {| isValid := false; errors := [msg_content_data] |})) 1
        && match head (errors {| isValid := false; errors := [msg_content_data] |}) with
           | Some m => includes m "content"
           | None => false
           end).
Proof.
  apply (payloadOnly_single_content_error Docs.two_items); reflexivity.
Defined.

(** ** The scans *)

Lemma for_each_append {A B} (body : A -> list B -> result (list B))
    (f : A -> list B) (xs : list A) :
  (forall x, In x xs -> forall acc, body x acc = Ok (acc ++ f x)) ->
  forall acc, for_each body xs acc = Ok (acc ++ flat_map f xs).
Proof.
  induction xs as [|x rest IH]; intros Hbody acc.
  - simpl. rewrite app_nil_r. reflexivity.
  - cbn [for_each flat_map]. rewrite (Hbody x (or_introl eq_refl)). cbn [bind].
    rewrite IH by (intros y Hy; apply Hbody; right; exact Hy).
    rewrite app_assoc. reflexivity.
Qed.

Lemma traverseJson_paths (h : host) (n : node) :
  forall currentDir jsonFiles,
    walkable n = true ->
    traverseJson h currentDir n jsonFiles = Ok (jsonFiles ++ jsonPaths h currentDir n).
Proof.
  induction n as [|files IH| |] using node_forall_ind; intros currentDir jsonFiles Hwalk;
    try discriminate.
  cbn [traverseJson jsonPaths]. cbn [walkable] in Hwalk.
  rewrite forallb_forall in Hwalk. rewrite List.Forall_forall in IH.
  apply for_each_append. intros [file child] Hin acc.
  specialize (Hwalk _ Hin). specialize (IH _ Hin). cbn [fst snd] in *.
  destruct child as [|sub| |]; cbn [isDirectory bind] in *; try discriminate.
  - destruct (String.eqb (path_extname h file) ".json");
      [reflexivity|rewrite app_nil_r; reflexivity].
  - apply IH, Hwalk.
Qed.

(** When the walk succeeds, [findJsonFiles] returns the paths of the
    entries that are not directories and whose name has the extension
    [.json], each once, depth first in the order of the listings. *)
Theorem findJsonFiles_paths (h : host) (tree : node) (dir : string) :
  walkable tree = true ->
  findJsonFiles h tree dir = Ok (jsonPaths h dir tree).
Proof. intros Hwalk. apply (traverseJson_paths h tree dir [] Hwalk). Qed.

Lemma findJsonFiles_paths_witness :
  findJsonFiles Sibling.h (Dir [("a.json", File); ("sub", Dir [("b.json", File)]);
                                ("c.txt", File)]) "lenses"
  = Ok ["lenses/a.json"; "lenses/sub/b.json"].
Proof.
  apply (findJsonFiles_paths Sibling.h
           (Dir [("a.json", File); ("sub", Dir [("b.json", File)]); ("c.txt", File)])
           "lenses").
  reflexivity.
Defined.

(** A property kept by every turn of a loop holds when the loop returns. *)
Lemma for_each_invariant {A S} (body : A -> S -> result S) (I : S -> Prop)
    (xs : list A) :
  (forall x, In x xs -> forall s s', I s -> body x s = Ok s' -> I s') ->
  forall s s', I s -> for_each body xs s = Ok s' -> I s'.
Proof.
  induction xs as [|x rest IH]; intros Hbody s s' Hs Hrun.
  - injection Hrun as <-. exact Hs.
  - cbn [for_each] in Hrun.
    destruct (body x s) as [s1|] eqn:Hx; [cbn [bind] in Hrun|discriminate].
    apply (IH (fun y Hy => Hbody y (or_intror Hy)) s1 s'); [|exact Hrun].
    exact (Hbody x (or_introl eq_refl) s s1 Hs Hx).
Qed.

Lemma scanScript_sound (h : host) (currentDir file filePath : string)
    (st : enhance_index * list string) :
  index_sound h st.1 /\ Forall (registered h) st.2 ->
  index_sound h (scanScript h currentDir file filePath st).1
  /\ Forall (registered h) (scanScript h currentDir file filePath st).2.
Proof.
  intros [[Hexact Hfallback] Hlist]. unfold scanScript.
  destruct (readFileSync h filePath) as [content|] eqn:Hread; cbn [bind try_catch].
  2:{ split; [split|]; assumption. }
  destruct (hasEnhance content) eqn:Hmark; cbn [try_catch fst snd].
  2:{ split; [split|]; assumption. }
  assert (Hreg : registered h filePath) by (exists content; auto).
  split; [split|].
  - intros k js. cbn [exact]. rewrite lookup_insert.
    case_decide; [intros [= <-]; exact Hreg|apply Hexact].
  - exact Hfallback.
  - apply Forall_app. split; [exact Hlist|]. constructor; [exact Hreg|constructor].
Qed.

Lemma traverseEnhance_sound (h : host) (n : node) :
  forall currentDir idx idx',
    index_sound h idx -> traverseEnhance h currentDir n idx = Ok idx' ->
    index_sound h idx'.
Proof.
  induction n as [|files IH| |] using node_forall_ind;
    intros currentDir idx idx' Hidx Hrun; try discriminate.
  cbn [traverseEnhance] in Hrun. rewrite List.Forall_forall in IH.
  match type of Hrun with
  | context [for_each ?body files ?s] =>
      destruct (for_each body files s) as [st|] eqn:Hloop;
      [cbn [bind] in Hrun|discriminate];
      assert (Hst : index_sound h st.1 /\ Forall (registered h) st.2)
  end.
  { refine (for_each_invariant _
              (fun st => index_sound h st.1 /\ Forall (registered h) st.2)
              files _ _ _ _ Hloop); [|split; [exact Hidx|constructor]].
    intros [file child] Hin s s' Hs Hbody. specialize (IH _ Hin).
    cbn [fst snd] in *.
    destruct child as [|sub| |]; cbn [isDirectory bind] in Hbody; try discriminate.
    - destruct (String.eqb (path_extname h file) ".js");
        injection Hbody as <-; [apply scanScript_sound|]; exact Hs.
    - destruct (traverseEnhance h (path_join h currentDir file) (Dir sub) s.1)
        as [found|] eqn:Hsub; [cbn [bind] in Hbody|discriminate].
      injection Hbody as <-. cbn [fst snd]. split; [|apply Hs].
      exact (IH _ _ _ (proj1 Hs) Hsub). }
  destruct Hst as [[Hexact Hfallback] Hlist].
  destruct (0 <? length st.2)%nat eqn:Hlen; injection Hrun as <-;
    [|split; assumption].
  split; [exact Hexact|]. intros d l. cbn [fallback]. rewrite lookup_insert.
  case_decide; [|apply Hfallback].
  intros [= <-]. split; [|exact Hlist].
  intros Hnil. rewrite Hnil in Hlen. discriminate.
Qed.

(** Whatever [findEnhanceFiles] registers, under [exact] or in a list of
    [fallback], is a script it could read and whose text holds one of
    the markers; and no list of [fallback] is empty. *)
Theorem findEnhanceFiles_sound (h : host) (tree : node) (dir : string)
    (idx : enhance_index) :
  findEnhanceFiles h tree dir = Ok idx ->
  (forall k js, exact idx !! k = Some js ->
                exists text, readFileSync h js = Ok text /\ hasEnhance text = true)
  /\ (forall d l, fallback idx !! d = Some l ->
                  l <> []
                  /\ forall js, In js l ->
                                exists text, readFileSync h js = Ok text
                                             /\ hasEnhance text = true).
Proof.
  intros Hrun.
  assert (Hsound : index_sound h idx).
  { refine (traverseEnhance_sound h tree dir _ idx _ Hrun).
    split; intros ? ?; cbn; rewrite lookup_empty; discriminate. }
  destruct Hsound as [Hexact Hfallback]. split; [exact Hexact|].
  intros d l Hl. destruct (Hfallback d l Hl) as [Hne Hall].
  split; [exact Hne|]. rewrite List.Forall_forall in Hall. exact Hall.
Qed.

Lemma findEnhanceFiles_sound_witness :
  (forall k js, exact Marked.index !! k = Some js ->
                exists text, readFileSync Marked.h js = Ok text
                             /\ hasEnhance text = true)
  /\ (forall d l, fallback Marked.index !! d = Some l ->
                  l <> []
                  /\ forall js, In js l ->
                                exists text, readFileSync Marked.h js = Ok text
                                             /\ hasEnhance text = true).
Proof.
  apply (findEnhanceFiles_sound Marked.h Sibling.tree "lenses" Marked.index).
  vm_compute. reflexivity.
Defined.

(** ** The loop over the documents *)

Lemma field_with_content (doc c : value) (k : string) :
  k <> "content" -> field k (with_content doc c) = field k doc.
Proof.
  intros Hk. destruct doc; try reflexivity; simpl;
    rewrite own_define_other by exact Hk; reflexivity.
Qed.

Lemma content_of_with_content (doc c : value) :
  is_reference doc = true -> content_of (with_content doc c) = c.
Proof.
  destruct doc; try discriminate; intros _; simpl; rewrite own_define_same;
    reflexivity.
Qed.

Lemma get_with_content_other (doc c : value) (k : string) :
  k <> "content" -> get (with_content doc c) k = get doc k.
Proof.
  intros Hk. destruct doc; try reflexivity; simpl.
  - destruct (String.eqb k "length"); [reflexivity|].
    destruct (array_index k); [reflexivity|].
    rewrite own_define_other by exact Hk. reflexivity.
  - rewrite own_define_other by exact Hk. reflexivity.
Qed.

(** The entry built from an object or an array. *)
Lemma makeEntry_reference (jsonData : value) (filePath : string)
    (enhanceFile enhanceSource' : option string) :
  is_reference jsonData = true ->
  makeEntry jsonData filePath enhanceFile enhanceSource' =
  Ok {| lens_id := field "id" jsonData;
        lens_name := field "name" jsonData;
        lens_url := field "url" jsonData;
        lens_version := if truthy (field "version" jsonData)
                        then field "version" jsonData else VStr "unknown";
        lens_status := field "status" jsonData;
        lens_path := filePath;
        hasBase64 := true;
        enhancedWithJs := if path_truthy enhanceFile then enhanceFile else None;
        enhanceSource := enhanceSource';
        lens := jsonData |}.
Proof.
  intros Href. unfold makeEntry.
  rewrite !(get_field jsonData) by (reflexivity || exact Href). reflexivity.
Qed.

(** A document that validates is pushed as it was parsed, with the
    summary of its fields, [version] defaulting to "unknown", and no
    trace of an enhancement; unless its [id] cannot be interpolated
    into the log line, in which case the file contributes nothing. *)
Theorem valid_document_contribution (h : host) (enhanceFiles : enhance_index)
    (filePath text : string) (jsonData : value) :
  readFileSync h filePath = Ok text ->
  JSON_parse h text = Ok jsonData ->
  validateFHIRLens jsonData = Ok {| isValid := true; errors := [] |} ->
  contribution h enhanceFiles filePath =
  if interpolation_throws (field "id" jsonData) then []
  else [ {| lens_id := field "id" jsonData;
            lens_name := field "name" jsonData;
            lens_url := field "url" jsonData;
            lens_version := if truthy (field "version" jsonData)
                            then field "version" jsonData else VStr "unknown";
            lens_status := field "status" jsonData;
            lens_path := filePath;
            hasBase64 := true;
            enhancedWithJs := None;
            enhanceSource := None;
            lens := jsonData |} ].
Proof.
  intros Hread Hparse Hval.
  destruct (valid_content _ _ Hval eq_refl) as [Href _].
  unfold contribution, processFile. rewrite Hread. cbn [bind].
  rewrite Hparse. cbn [bind]. rewrite Hval. cbn [bind isValid].
  rewrite (get_field jsonData "id") by (reflexivity || exact Href). cbn [bind].
  unfold interpolate. destruct (interpolation_throws (field "id" jsonData));
    [reflexivity|]. cbn [bind].
  rewrite (makeEntry_reference _ _ _ _ Href). reflexivity.
Qed.

Lemma valid_document_contribution_witness :
  contribution (table_host [("lenses/x.json", Sibling.text)]
                           [(Sibling.text, Marked.enhanced)])
               Marked.index "lenses/x.json" =
  if interpolation_throws (field "id" Marked.enhanced) then []
  else [ {| lens_id := field "id" Marked.enhanced;
            lens_name := field "name" Marked.enhanced;
            lens_url := field "url" Marked.enhanced;
            lens_version := if truthy (field "version" Marked.enhanced)
                            then field "version" Marked.enhanced else VStr "unknown";
            lens_status := field "status" Marked.enhanced;
            lens_path := "lenses/x.json";
            hasBase64 := true;
            enhancedWithJs := None;
            enhanceSource := None;
            lens := Marked.enhanced |} ].
Proof.
  apply (valid_document_contribution
           (table_host [("lenses/x.json", Sibling.text)]
                       [(Sibling.text, Marked.enhanced)])
           Marked.index "lenses/x.json" Sibling.text Marked.enhanced);
    reflexivity.
Defined.

Lemma splice_with_content (jsonData after : value) (base64Content : string) :
  is_reference jsonData = true -> splice jsonData base64Content = Ok after ->
  exists c, after = with_content jsonData c.
Proof.
  intros Href Hsplice. rewrite (splice_reference _ _ Href) in Hsplice.
  cbv zeta in Hsplice.
  match type of Hsplice with
  | context [get ?c1 "length"] =>
      destruct (get c1 "length") as [len|]; [cbn [bind] in Hsplice|discriminate];
      destruct (if strict_eq_number len 0 then push c1 (VObj []) else Ok c1)
        as [c2|]; [cbn [bind] in Hsplice|discriminate]
  end.
  destruct (get c2 "0") as [first|]; [cbn [bind] in Hsplice|discriminate].
  destruct (set_prop first "data" (VStr base64Content)) as [first'|];
    [cbn [bind] in Hsplice|discriminate].
  injection Hsplice as <-. eauto.
Qed.

(** The document of an entry differs from the parsed one in [content]
    at most, and the summary fields of the entry are those of the parsed
    document. *)
Theorem emitted_entry_frame (h : host) (enhanceFiles : enhance_index)
    (filePath text : string) (jsonData : value) (entry : lensEntry) :
  readFileSync h filePath = Ok text ->
  JSON_parse h text = Ok jsonData ->
  processFile h enhanceFiles filePath = Ok (Some entry) ->
  (forall k, k <> "content" -> get (lens entry) k = get jsonData k)
  /\ lens_id entry = field "id" jsonData
  /\ lens_name entry = field "name" jsonData
  /\ lens_url entry = field "url" jsonData
  /\ lens_status entry = field "status" jsonData
  /\ lens_version entry = (if truthy (field "version" jsonData)
                          then field "version" jsonData else VStr "unknown")
  /\ lens_path entry = filePath
  /\ hasBase64 entry = true.
Proof.
  intros Hread Hparse
    (text' & jsonData' & validation & Hread' & Hparse' & Hval & Hcases)%processFile_some.
  rewrite Hread in Hread'. injection Hread' as <-.
  rewrite Hparse in Hparse'. injection Hparse' as <-.
  destruct Hcases as [[Hok He]|(_ & Hgate & He)].
  - assert (Hv : validation = {| isValid := true; errors := [] |})
      by exact (validateFHIRLens_valid_no_errors _ _ Hval Hok).
    subst validation. destruct (valid_content _ _ Hval eq_refl) as [Href _].
    rewrite (makeEntry_reference _ _ _ _ Href) in He. injection He as <-.
    cbn. repeat split.
  - destruct (gate_content _ _ Hval Hgate) as [Href _].
    apply enhanceLens_some in He as (after & revalidation & Hsplice & _ & _ & He).
    destruct (splice_with_content _ _ _ Href Hsplice) as [c ->].
    rewrite makeEntry_reference in He
      by (rewrite with_content_reference; exact Href).
    injection He as <-. cbn.
    rewrite !field_with_content by discriminate.
    repeat split. intros k Hk. apply get_with_content_other, Hk.
Qed.

Lemma emitted_entry_frame_witness :
  (forall k, k <> "content" -> get (lens Marked.entry) k = get Sibling.document k)
  /\ lens_id Marked.entry = field "id" Sibling.document
  /\ lens_name Marked.entry = field "name" Sibling.document
  /\ lens_url Marked.entry = field "url" Sibling.document
  /\ lens_status Marked.entry = field "status" Sibling.document
  /\ lens_version Marked.entry = (if truthy (field "version" Sibling.document)
                                 then field "version" Sibling.document
                                 else VStr "unknown")
  /\ lens_path Marked.entry = "lenses/x.json"
  /\ hasBase64 Marked.entry = true.
Proof.
  apply (emitted_entry_frame Marked.h Marked.index "lenses/x.json" Sibling.text
           Sibling.document Marked.entry); vm_compute; reflexivity.
Defined.

(** A document with a defect other than its payload is never emitted:
    if the validator reports a message that does not mention [content],
    the file contributes nothing, whatever scripts are registered. *)
Theorem other_defect_not_emitted (h : host) (enhanceFiles : enhance_index)
    (filePath text : string) (jsonData : value) (validation : validation)
    (m : string) :
  readFileSync h filePath = Ok text ->
  JSON_parse h text = Ok jsonData ->
  validateFHIRLens jsonData = Ok validation ->
  In m (errors validation) -> includes m "content" = false ->
  contribution h enhanceFiles filePath = [].
Proof.
  intros Hread Hparse Hval Hin Hm.
  unfold contribution, processFile. rewrite Hread. cbn [bind].
  rewrite Hparse. cbn [bind]. rewrite Hval. cbn [bind].
  destruct (isValid validation) eqn:Hok.
  - rewrite (validateFHIRLens_valid_no_errors _ _ Hval Hok) in Hin. destruct Hin.
  - unfold payloadOnly.
    destruct (errors validation) as [|m0 [|m1 rest]]; cbn; try reflexivity.
    destruct Hin as [->|[]]. rewrite Hm. reflexivity.
Qed.

Lemma other_defect_not_emitted_witness :
  contribution (table_host [("lenses/x.json", Sibling.text)]
                  [(Sibling.text, VObj [("resourceType", VStr "Library");
                                        ("url", VStr "u"); ("name", VStr "n")])])
               Marked.index "lenses/x.json" = [].
Proof.
  apply (other_defect_not_emitted
           (table_host [("lenses/x.json", Sibling.text)]
              [(Sibling.text, VObj [("resourceType", VStr "Library");
                                    ("url", VStr "u"); ("name", VStr "n")])])
           Marked.index "lenses/x.json" Sibling.text
           (VObj [("resourceType", VStr "Library"); ("url", VStr "u");
                  ("name", VStr "n")])
           {| isValid := false; errors := [msg_status; msg_content_array] |}
           msg_status); first [reflexivity | left; reflexivity].
Defined.

Lemma base64_encode_nonempty (s : string) :
  s <> EmptyString -> base64_encode s <> EmptyString.
Proof. destruct s as [|a [|b [|c rest]]]; [congruence|discriminate..]. Qed.

Lemma registered_payload (h : host) (js b : string) :
  registered h js -> jsToBase64 h js = Ok b -> b <> EmptyString.
Proof.
  intros (text & Hread & Hmark). unfold jsToBase64. rewrite Hread. cbn [bind].
  intros [= <-]. apply base64_encode_nonempty. intros ->. discriminate.
Qed.

(** With a sound index the payload chosen for a document is never empty. *)
Lemma resolve_payload_nonempty (h : host) (idx : enhance_index) (filePath : string) :
  index_sound h idx -> (resolveEnhance h idx filePath).1.1 <> EmptyString.
Proof.
  intros [Hexact Hfallback]. unfold resolveEnhance.
  destruct (exact idx !! filePath) as [js|] eqn:He.
  - destruct (path_truthy (Some js)) eqn:Ht; cbn [negb fst snd].
    + rewrite Ht. cbn [from_option id].
      destruct (jsToBase64 h js) as [b|] eqn:Hb; cbn [fst snd]; [|discriminate].
      exact (registered_payload _ _ _ (Hexact _ _ He) Hb).
    + destruct (fallback idx !! path_dirname h filePath) as [l|] eqn:Hf.
      * destruct (Hfallback _ _ Hf) as [Hne Hall].
        destruct l as [|js' rest]; [congruence|]. cbn [length Nat.ltb Nat.leb head fst snd].
        destruct (path_truthy (Some js')); cbn [from_option id fst snd]; [|discriminate].
        destruct (jsToBase64 h js') as [b|] eqn:Hb; cbn [fst snd]; [|discriminate].
        inversion Hall; subst. eapply registered_payload; eauto.
      * cbn [fst snd]. rewrite Ht. discriminate.
  - cbn [path_truthy negb].
    destruct (fallback idx !! path_dirname h filePath) as [l|] eqn:Hf.
    + destruct (Hfallback _ _ Hf) as [Hne Hall].
      destruct l as [|js' rest]; [congruence|]. cbn [length Nat.ltb Nat.leb head fst snd].
      destruct (path_truthy (Some js')); cbn [from_option id fst snd]; [|discriminate].
      destruct (jsToBase64 h js') as [b|] eqn:Hb; cbn [fst snd]; [|discriminate].
      inversion Hall; subst. eapply registered_payload; eauto.
    + cbn [fst snd path_truthy]. discriminate.
Qed.

(** The splice on a parsed document with a spliceable [content], in
    closed form. *)
Lemma splice_spliceable_form (doc : value) (base64Content : string) :
  json doc = true -> is_reference doc = true ->
  spliceable (content_of doc) = true ->
  exists first' rest,
    splice doc base64Content = Ok (with_content doc (VArr (first' :: rest) []))
    /\ nullish first' = false
    /\ data_of first' = VStr base64Content.
Proof.
  intros Hjson Href Hok. rewrite (splice_reference _ _ Href). cbv zeta.
  assert (Hprops : forall items props, content_of doc = VArr items props -> props = []).
  { intros items props Hc. destruct doc; try discriminate; simpl in Hc.
    - rewrite (json_array_props _ _ Hjson) in Hc. discriminate.
    - destruct (own "content" fields) as [c|] eqn:Hown; simpl in Hc; [|discriminate].
      subst c. simpl in Hjson. exact (json_array_props _ _ (own_json _ _ _ Hjson Hown)). }
  destruct (truthy (content_of doc)) eqn:Ht.
  - destruct (content_of doc) as [| |b|n|s|items props|fields] eqn:Hc;
      simpl in Ht, Hok; try discriminate; try (rewrite Ht in Hok; discriminate).
    rewrite (Hprops _ _ eq_refl) in *.
    destruct items as [|first rest].
    + cbn. exists (VObj [("data", VStr base64Content)]), []. auto.
    + cbn [get String.eqb Ascii.eqb Bool.eqb bind].
      rewrite strict_eq_number_length_0. cbn [length Nat.eqb bind].
      change (get (VArr (first :: rest) []) "0") with (Ok first). cbn [bind].
      destruct first; try discriminate; cbn.
      * eexists _, rest. split; [reflexivity|]. split; [reflexivity|].
        cbn. rewrite own_define_same. reflexivity.
      * eexists _, rest. split; [reflexivity|]. split; [reflexivity|].
        cbn. rewrite own_define_same. reflexivity.
  - cbn. exists (VObj [("data", VStr base64Content)]), []. auto.
Qed.

(** Past the test before the splice, the four field checks hold. *)
Lemma gate_fields (doc : value) (v : validation) :
  validateFHIRLens doc = Ok v -> payloadOnly v doc = Ok true ->
  strict_eq_string (field "resourceType" doc) "Library" = true
  /\ nonempty_string (field "url" doc) = true
  /\ nonempty_string (field "name" doc) = true
  /\ nonempty_string (field "status" doc) = true.
Proof.
  intros Hval Hgate. destruct (gate_content _ _ Hval Hgate) as [Href _].
  destruct (errors_of_validation _ _ Hval) as [Herrs _]. rewrite Href in Herrs.
  unfold payloadOnly in Hgate.
  destruct (errors v) as [|m [|m' rest]]; cbn in Hgate; try discriminate.
  destruct (includes m "content") eqn:Hm; [|discriminate].
  assert (Hother : forall m', In m' all_messages -> includes m' "content" = false ->
                              violated doc m' = false).
  { intros m' Hin Hm'. destruct (violated doc m') eqn:Hv; [|reflexivity].
    assert (Hin' : In m' [m]) by (rewrite Herrs; apply filter_In; auto).
    destruct Hin' as [->|[]]. congruence. }
  pose proof (Hother msg_resourceType ltac:(simpl; auto) eq_refl) as H1.
  pose proof (Hother msg_url ltac:(simpl; auto) eq_refl) as H2.
  pose proof (Hother msg_name ltac:(simpl; auto 6) eq_refl) as H3.
  pose proof (Hother msg_status ltac:(simpl; auto 6) eq_refl) as H4.
  unfold violated in H1, H2, H3, H4.
  change (String.eqb msg_resourceType msg_resourceType) with true in H1.
  change (String.eqb msg_url msg_resourceType) with false in H2.
  change (String.eqb msg_url msg_url) with true in H2.
  change (String.eqb msg_name msg_resourceType) with false in H3.
  change (String.eqb msg_name msg_url) with false in H3.
  change (String.eqb msg_name msg_name) with true in H3.
  change (String.eqb msg_status msg_resourceType) with false in H4.
  change (String.eqb msg_status msg_url) with false in H4.
  change (String.eqb msg_status msg_name) with false in H4.
  change (String.eqb msg_status msg_status) with true in H4.
  cbv iota in H1, H2, H3, H4.
  repeat split; apply negb_false_iff; assumption.
Qed.

(** A parsed document whose only defect is its payload, whose [content]
    is absent, falsy, or an array starting (if not empty) with an object
    or an array, and whose [id] can be interpolated, is emitted: the
    file contributes exactly one entry, carrying in [content[0].data]
    the payload resolved for it and in [enhanceSource] its provenance. *)
Theorem payload_only_document_emitted (h : host) (tree : node) (dir : string)
    (idx : enhance_index) (filePath text : string) (jsonData : value)
    (validation : validation) :
  findEnhanceFiles h tree dir = Ok idx ->
  readFileSync h filePath = Ok text ->
  JSON_parse h text = Ok jsonData ->
  json jsonData = true ->
  validateFHIRLens jsonData = Ok validation ->
  isValid validation = false ->
  payloadOnly validation jsonData = Ok true ->
  spliceable (content_of jsonData) = true ->
  interpolation_throws (field "id" jsonData) = false ->
  exists entry,
    contribution h idx filePath = [entry]
    /\ first_data (lens entry) = Ok (VStr (resolveEnhance h idx filePath).1.1)
    /\ enhanceSource entry = Some (resolveEnhance h idx filePath).2.
Proof.
  intros Hscan Hread Hparse Hjson Hval Hinvalid Hgate Hsplice Hid.
  assert (Hsound : index_sound h idx).
  { refine (traverseEnhance_sound h tree dir _ idx _ Hscan).
    split; intros ? ?; cbn; rewrite lookup_empty; discriminate. }
  pose proof (resolve_payload_nonempty h idx filePath Hsound) as Hpayload.
  destruct (gate_content _ _ Hval Hgate) as [Href _].
  destruct (gate_fields _ _ Hval Hgate) as (H1 & H2 & H3 & H4).
  destruct (resolveEnhance h idx filePath) as [[payload script] source] eqn:Hres.
  cbn [fst snd] in *.
  destruct (splice_spliceable_form jsonData payload Hjson Href Hsplice)
    as (first' & rest & Hspl & Hnull & Hdata).
  set (after := with_content jsonData (VArr (first' :: rest) [])) in *.
  assert (Hrefa : is_reference after = true)
    by (unfold after; rewrite with_content_reference; exact Href).
  assert (Hvalid : validateFHIRLens after = Ok {| isValid := true; errors := [] |}).
  { rewrite (validateFHIRLens_fields _ Hrefa). cbv zeta. unfold after.
    rewrite !field_with_content by discriminate.
    rewrite (content_of_with_content _ _ Href), H1, H2, H3, H4.
    cbn [negb push_if isArray items_of]. rewrite hasBase64Content_first_stop.
    unfold first_stop. cbn [List.find]. unfold has_payload. rewrite Hnull, Hdata.
    cbn [orb nonempty_string].
    destruct (String.eqb_spec payload EmptyString); [contradiction|].
    cbn [negb]. rewrite Hnull. reflexivity. }
  eexists. unfold contribution, processFile, enhanceLens.
  rewrite Hread. cbn [bind]. rewrite Hparse. cbn [bind]. rewrite Hval. cbn [bind].
  rewrite Hinvalid, Hgate. cbn [bind].
  rewrite (get_field jsonData "id") by (reflexivity || exact Href). cbn [bind].
  unfold interpolate. rewrite Hid. cbn [bind]. rewrite Hres.
  rewrite Hspl. cbn [bind try_catch]. fold after. rewrite Hvalid. cbn [bind isValid].
  rewrite (makeEntry_reference _ _ _ _ Hrefa). cbn [bind try_catch].
  split; [reflexivity|]. cbn [lens enhanceSource]. split; [|reflexivity].
  unfold first_data, after. rewrite (get_with_content _ _ Href). cbn [bind].
  change (get (VArr (first' :: rest) []) "0") with (Ok first'). cbn [bind].
  rewrite get_data by (intros ->; discriminate). rewrite Hdata. reflexivity.
Qed.

Lemma payload_only_document_emitted_witness :
  exists entry,
    contribution Marked.h Marked.index "lenses/x.json" = [entry]
    /\ first_data (lens entry)
       = Ok (VStr (resolveEnhance Marked.h Marked.index "lenses/x.json").1.1)
    /\ enhanceSource entry
       = Some (resolveEnhance Marked.h Marked.index "lenses/x.json").2.
Proof.
  apply (payload_only_document_emitted Marked.h Sibling.tree "lenses" Marked.index
           "lenses/x.json" Sibling.text Sibling.document
           {| isValid := false; errors := [msg_content_data] |});
    vm_compute; reflexivity.
Defined.

(** ** The payload *)

Lemma jsToBase64_decodes_witness :
  exists text, readFileSync Marked.h "lenses/x.js" = Ok text
               /\ base64_decode (base64_encode Marked.script) = Some text.
Proof.
  apply (jsToBase64_decodes Marked.h "lenses/x.js" (base64_encode Marked.script)).
  reflexivity.
Defined.

Lemma base64_length_steps (s : string) :
  String.length (base64_encode s) = 4 * ((String.length s + 2) / 3)
  /\ (forall a, String.length (base64_encode (String a s))
                = 4 * ((String.length (String a s) + 2) / 3))
  /\ (forall a b, String.length (base64_encode (String a (String b s)))
                  = 4 * ((String.length (String a (String b s)) + 2) / 3)).
Proof.
  induction s as [|c s (IH1 & IH2 & IH3)].
  - repeat split; intros; reflexivity.
  - split; [exact (IH2 c)|]. split; [exact (fun a => IH3 a c)|].
    intros a b.
    change (base64_encode (String a (String b (String c s)))) with
      (String (base64_digit (nat_of_ascii a / 4))
         (String (base64_digit (nat_of_ascii a mod 4 * 16 + nat_of_ascii b / 16))
            (String (base64_digit (nat_of_ascii b mod 16 * 4 + nat_of_ascii c / 64))
               (String (base64_digit (nat_of_ascii c mod 64)) (base64_encode s))))).
    cbn [String.length]. rewrite IH1.
    replace (S (S (S (String.length s))) + 2) with ((String.length s + 2) + 1 * 3) by lia.
    rewrite Nat.div_add by lia. lia.
Qed.

(** The encoding of a text of [n] bytes has [4 * ceil (n / 3)]
    characters; in particular only the empty text encodes to the empty
    string. *)
Theorem base64_encode_length (s : string) :
  String.length (base64_encode s) = 4 * ((String.length s + 2) / 3)
  /\ (base64_encode s = EmptyString <-> s = EmptyString).
Proof.
  split; [apply base64_length_steps|].
  split; [|intros ->; reflexivity].
  intros H. destruct s; [reflexivity|].
  exfalso. revert H. apply base64_encode_nonempty. discriminate.
Qed.

(** ** The service and its cache *)

(** What a resolved call leaves in the cache. *)
Lemma getLenses_resolved (CACHE_TTL : option Z)
    (discover : string -> result (list lensEntry)) (now stored : Z)
    (repoUrl branch lensFilePath : option string)
    (lensCache lensCache' : gmap string cache_entry) (lenses : list lensEntry) :
  getLenses CACHE_TTL discover now stored repoUrl branch lensFilePath lensCache
  = (Resolved lenses, lensCache') ->
  path_truthy repoUrl = true
  /\ exists stamp,
       lensCache' !! cacheKey repoUrl branch lensFilePath
       = Some {| cached_lenses := lenses; timestamp := stamp |}
       /\ ((lensCache' = lensCache /\ fresh CACHE_TTL now stamp = true)
           \/ (stamp = stored /\ discover (template repoUrl) = Ok lenses
               /\ lensCache' =
                  <[cacheKey repoUrl branch lensFilePath :=
                      {| cached_lenses := lenses; timestamp := stored |}]>
                    (delete (cacheKey repoUrl branch lensFilePath) lensCache))).
Proof.
  unfold getLenses. destruct (path_truthy repoUrl); [cbn [negb]|discriminate].
  intros H. split; [reflexivity|].
  destruct (lensCache !! cacheKey repoUrl branch lensFilePath) as [cached|] eqn:Hhit.
  - destruct (fresh CACHE_TTL now (timestamp cached)) eqn:Hfresh.
    + injection H as <- <-. exists (timestamp cached). split; [|auto].
      rewrite Hhit. destruct cached; reflexivity.
    + destruct (discover (template repoUrl)) as [found|] eqn:Hd; [|discriminate].
      injection H as <- <-. exists stored. split; [apply lookup_insert_eq|].
      right. auto.
  - destruct (discover (template repoUrl)) as [found|] eqn:Hd; [|discriminate].
    injection H as <- <-. exists stored. split; [apply lookup_insert_eq|].
    right. rewrite (delete_id _ _ Hhit). auto.
Qed.

Lemma getLenses_hit (CACHE_TTL : option Z)
    (discover : string -> result (list lensEntry)) (now stored : Z)
    (repoUrl branch lensFilePath : option string)
    (lensCache : gmap string cache_entry) (cached : cache_entry) :
  path_truthy repoUrl = true ->
  lensCache !! cacheKey repoUrl branch lensFilePath = Some cached ->
  fresh CACHE_TTL now (timestamp cached) = true ->
  getLenses CACHE_TTL discover now stored repoUrl branch lensFilePath lensCache
  = (Resolved (cached_lenses cached), lensCache).
Proof.
  intros Hurl Hhit Hfresh. unfold getLenses. rewrite Hurl, Hhit, Hfresh. reflexivity.
Qed.

(** Once a call has resolved, the same coordinates resolve to the same
    lenses, without a new discovery and without a change of the cache,
    for as long as the entry is fresh: whatever [discoverLenses] would
    return or throw by then. *)
Theorem getLenses_repeat (CACHE_TTL : option Z)
    (discover : string -> result (list lensEntry)) (now stored : Z)
    (repoUrl branch lensFilePath : option string)
    (lensCache lensCache' : gmap string cache_entry) (lenses : list lensEntry) :
  getLenses CACHE_TTL discover now stored repoUrl branch lensFilePath lensCache
  = (Resolved lenses, lensCache') ->
  exists stamp,
    lensCache' !! cacheKey repoUrl branch lensFilePath
    = Some {| cached_lenses := lenses; timestamp := stamp |}
    /\ forall discover' now' stored',
         fresh CACHE_TTL now' stamp = true ->
         getLenses CACHE_TTL discover' now' stored' repoUrl branch lensFilePath
           lensCache'
         = (Resolved lenses, lensCache').
Proof.
  intros (Hurl & stamp & Hentry & _)%getLenses_resolved.
  exists stamp. split; [exact Hentry|].
  intros discover' now' stored' Hfresh.
  exact (getLenses_hit _ _ _ _ _ _ _ _ _ Hurl Hentry Hfresh).
Qed.

Lemma getLenses_repeat_witness :
  exists stamp,
    (<[cacheKey (Some "repo") None None :=
         {| cached_lenses := [Marked.entry]; timestamp := 7 |}]> ∅
       : gmap string cache_entry) !! cacheKey (Some "repo") None None
    = Some {| cached_lenses := [Marked.entry]; timestamp := stamp |}
    /\ forall discover' now' stored',
         fresh (Some 300000%Z) now' stamp = true ->
         getLenses (Some 300000%Z) discover' now' stored' (Some "repo") None None
           (<[cacheKey (Some "repo") None None :=
                {| cached_lenses := [Marked.entry]; timestamp := 7 |}]> ∅)
         = (Resolved [Marked.entry],
            <[cacheKey (Some "repo") None None :=
                {| cached_lenses := [Marked.entry]; timestamp := 7 |}]> ∅).
Proof.
  apply (getLenses_repeat (Some 300000%Z) (fun _ => Ok [Marked.entry]) 5 7
           (Some "repo") None None ∅).
  reflexivity.
Defined.

(** A discovery that throws is not cached, and it takes the stale entry
    with it: after the rejected call the key is absent, so the next call
    discovers again. *)
Theorem getLenses_failure_not_cached (CACHE_TTL : option Z)
    (discover : string -> result (list lensEntry)) (now stored : Z)
    (repoUrl branch lensFilePath : option string)
    (lensCache lensCache' : gmap string cache_entry) (e : error) :
  getLenses CACHE_TTL discover now stored repoUrl branch lensFilePath lensCache
  = (Rejected (DiscoveryFailed e), lensCache') ->
  discover (template repoUrl) = Throw e
  /\ lensCache' = delete (cacheKey repoUrl branch lensFilePath) lensCache
  /\ forall discover' now' stored',
       getLenses CACHE_TTL discover' now' stored' repoUrl branch lensFilePath
         lensCache'
       = match discover' (template repoUrl) with
         | Ok lenses =>
             (Resolved lenses,
              <[cacheKey repoUrl branch lensFilePath :=
                  {| cached_lenses := lenses; timestamp := stored' |}]> lensCache')
         | Throw e' => (Rejected (DiscoveryFailed e'), lensCache')
         end.
Proof.
  unfold getLenses. destruct (path_truthy repoUrl); [cbn [negb]|discriminate].
  set (key := cacheKey repoUrl branch lensFilePath).
  intros H.
  assert (Hd : discover (template repoUrl) = Throw e
               /\ lensCache' = delete key lensCache).
  { destruct (lensCache !! key) as [cached|] eqn:Hhit.
    - destruct (fresh CACHE_TTL now (timestamp cached)); [discriminate|].
      destruct (discover (template repoUrl)); [discriminate|].
      injection H as <- <-. auto.
    - destruct (discover (template repoUrl)); [discriminate|].
      injection H as <- <-. rewrite (delete_id _ _ Hhit). auto. }
  destruct Hd as [Hd ->]. split; [exact Hd|]. split; [reflexivity|].
  intros discover' now' stored'. rewrite lookup_delete_eq. reflexivity.
Qed.

Lemma getLenses_failure_not_cached_witness :
  (fun _ : string => @Throw (list lensEntry) IOError) (template (Some "repo"))
  = Throw IOError
  /\ (∅ : gmap string cache_entry) = delete (cacheKey (Some "repo") None None) ∅
  /\ forall discover' now' stored',
       getLenses None discover' now' stored' (Some "repo") None None ∅
       = match discover' (template (Some "repo")) with
         | Ok lenses =>
             (Resolved lenses,
              <[cacheKey (Some "repo") None None :=
                  {| cached_lenses := lenses; timestamp := stored' |}]> ∅)
         | Throw e' => (Rejected (DiscoveryFailed e'), ∅)
         end.
Proof.
  apply (getLenses_failure_not_cached None (fun _ => Throw IOError) 0 0
           (Some "repo") None None ∅ ∅ IOError).
  reflexivity.
Defined.

Lemma append_assoc (s1 s2 s3 : string) :
  (s1 +:+ s2) +:+ s3 = s1 +:+ s2 +:+ s3.
Proof.
  induction s1 as [|a s1 IH]; [reflexivity|].
  change (String a ((s1 +:+ s2) +:+ s3) = String a (s1 +:+ s2 +:+ s3)).
  f_equal. exact IH.
Qed.

Lemma cacheKey_shift (r x b : string) (p : option string) :
  cacheKey (Some (r +:+ ":" +:+ x)) (Some b) p
  = cacheKey (Some r) (Some (x +:+ ":" +:+ b)) p.
Proof.
  unfold cacheKey. cbn [template]. rewrite !append_assoc. reflexivity.
Qed.

(** The cache key is the three coordinates joined by colons, so distinct
    coordinates can share a key: a colon can move between the URL and
    the branch.  A request for one of them then gets, while the entry
    is fresh, the lenses cached for the other, without any discovery. *)
Theorem getLenses_key_collision (CACHE_TTL : option Z)
    (discover : string -> result (list lensEntry)) (now stored : Z)
    (r x b : string) (p : option string)
    (lensCache lensCache' : gmap string cache_entry) (lenses : list lensEntry) :
  r <> EmptyString ->
  getLenses CACHE_TTL discover now stored (Some (r +:+ ":" +:+ x)) (Some b) p lensCache
  = (Resolved lenses, lensCache') ->
  exists stamp,
    forall discover' now' stored',
      fresh CACHE_TTL now' stamp = true ->
      getLenses CACHE_TTL discover' now' stored' (Some r) (Some (x +:+ ":" +:+ b)) p
        lensCache'
      = (Resolved lenses, lensCache').
Proof.
  intros Hr (_ & stamp & Hentry & _)%getLenses_resolved.
  exists stamp. intros discover' now' stored' Hfresh.
  rewrite cacheKey_shift in Hentry.
  refine (getLenses_hit _ _ _ _ _ _ _ _ _ _ Hentry Hfresh).
  simpl. destruct (String.eqb_spec r EmptyString); [contradiction|reflexivity].
Qed.

Lemma getLenses_key_collision_witness :
  exists stamp,
    forall discover' now' stored',
      fresh (Some 300000%Z) now' stamp = true ->
      getLenses (Some 300000%Z) discover' now' stored'
        (Some "https") (Some ("//host/a" +:+ ":" +:+ "main")) None
        (<[cacheKey (Some ("https" +:+ ":" +:+ "//host/a")) (Some "main") None :=
             {| cached_lenses := [Marked.entry]; timestamp := 7 |}]> ∅)
      = (Resolved [Marked.entry],
         <[cacheKey (Some ("https" +:+ ":" +:+ "//host/a")) (Some "main") None :=
             {| cached_lenses := [Marked.entry]; timestamp := 7 |}]> ∅).
Proof.
  apply (getLenses_key_collision (Some 300000%Z) (fun _ => Ok [Marked.entry]) 5 7
           "https" "//host/a" "main" None ∅);
    [discriminate|reflexivity].
Defined.

(** ** From the scan to the response *)






Lemma getLenses_seen (CACHE_TTL : option Z)
    (discover : string -> result (list lensEntry)) (now stored : Z)
    (repoUrl branch lensFilePath : option string)
    (lensCache : gmap string cache_entry) :
  (getLenses CACHE_TTL discover now stored repoUrl branch lensFilePath lensCache).1
  = if negb (path_truthy repoUrl) then Rejected MissingRepoUrl
    else match lenses_seen CACHE_TTL discover now repoUrl branch lensFilePath
                 lensCache with
         | Ok lenses => Resolved lenses
         | Throw e => Rejected (DiscoveryFailed e)
         end.
Proof.
  unfold getLenses, lenses_seen.
  destruct (path_truthy repoUrl); [cbn [negb]|reflexivity].
  destruct (lensCache !! cacheKey repoUrl branch lensFilePath) as [cached|].
  - destruct (fresh CACHE_TTL now (timestamp cached)); [reflexivity|].
    destruct (discover (template repoUrl)); reflexivity.
  - destruct (discover (template repoUrl)); reflexivity.
Qed.

Lemma find_existsb {A} (f : A -> bool) (l : list A) :
  existsb f l = match List.find f l with Some _ => true | None => false end.
Proof.
  induction l as [|x rest IH]; [reflexivity|]. cbn [existsb List.find].
  destruct (f x); [reflexivity|exact IH].
Qed.

(** The status of [GET /lenses/:name], from the inputs: 500 when
    [GIT_REPO_URL] is missing or empty, or when a discovery is needed
    and throws; otherwise 200 when a lens has the key as its [name] or
    its [id], and 404 when none has. *)
Theorem lensRoute_status (CACHE_TTL : option Z)
    (discover : string -> result (list lensEntry)) (now stored : Z)
    (GIT_REPO_URL GIT_BRANCH LENS_FILE_PATH : option string) (name : string)
    (lensCache : gmap string cache_entry) :
  res_status (lensRoute CACHE_TTL discover now stored
                GIT_REPO_URL GIT_BRANCH LENS_FILE_PATH name lensCache).1
  = if negb (path_truthy GIT_REPO_URL) then 500
    else match lenses_seen CACHE_TTL discover now
                 GIT_REPO_URL GIT_BRANCH LENS_FILE_PATH lensCache with
         | Throw _ => 500
         | Ok lenses => if existsb (named name) lenses then 200 else 404
         end.
Proof.
  pose proof (getLenses_seen CACHE_TTL discover now stored
                GIT_REPO_URL GIT_BRANCH LENS_FILE_PATH lensCache) as Hseen.
  unfold lensRoute, getLensByName.
  destruct (getLenses CACHE_TTL discover now stored
              GIT_REPO_URL GIT_BRANCH LENS_FILE_PATH lensCache) as [r c].
  cbn [fst] in Hseen. subst r.
  destruct (path_truthy GIT_REPO_URL); [cbn [negb]|reflexivity].
  destruct (lenses_seen CACHE_TTL discover now
              GIT_REPO_URL GIT_BRANCH LENS_FILE_PATH lensCache) as [lenses|e];
    [|reflexivity].
  rewrite find_existsb.
  destruct (List.find (named name) lenses); reflexivity.
Qed.

(** Every string listed by [getLensNames] can be fetched: while the
    entry is fresh, [GET /lenses/:name] with a listed id as key answers
    200 with a document, and does not touch the cache. *)
Theorem listed_ids_resolve (CACHE_TTL : option Z)
    (discover : string -> result (list lensEntry)) (now stored : Z)
    (repoUrl branch lensFilePath : option string)
    (lensCache lensCache' : gmap string cache_entry) (ids : list value) :
  getLensNames CACHE_TTL discover now stored repoUrl branch lensFilePath lensCache
  = (Resolved ids, lensCache') ->
  exists stamp,
    forall discover' now' stored' name,
      fresh CACHE_TTL now' stamp = true -> In (VStr name) ids ->
      exists doc,
        lensRoute CACHE_TTL discover' now' stored' repoUrl branch lensFilePath name
          lensCache'
        = ({| res_status := 200; res_body := Document doc |}, lensCache').
Proof.
  unfold getLensNames.
  destruct (getLenses CACHE_TTL discover now stored repoUrl branch lensFilePath
              lensCache) as [[lenses|f] c] eqn:Hget; [|discriminate].
  intros [= <- <-].
  destruct (getLenses_resolved _ _ _ _ _ _ _ _ _ _ Hget) as (Hurl & stamp & Hentry & _).
  exists stamp. intros discover' now' stored' name Hfresh Hin.
  unfold lensRoute, getLensByName.
  rewrite (getLenses_hit _ discover' now' stored' _ _ _ _ _ Hurl Hentry Hfresh).
  cbn [cached_lenses].
  destruct (List.find (named name) lenses) as [l|] eqn:Hfind; [eauto|].
  exfalso. apply in_map_iff in Hin as (l & Hid & Hl).
  pose proof (List.find_none _ _ Hfind l Hl) as Hno. unfold named in Hno.
  rewrite Hid in Hno. cbn in Hno. rewrite String.eqb_refl, orb_true_r in Hno.
  discriminate.
Qed.

Lemma listed_ids_resolve_witness :
  exists stamp,
    forall discover' now' stored' name,
      fresh (Some 300000%Z) now' stamp = true -> In (VStr name) [VStr "x"] ->
      exists doc,
        lensRoute (Some 300000%Z) discover' now' stored' (Some "lenses") None None name
          (<[cacheKey (Some "lenses") None None :=
               {| cached_lenses := [Marked.entry]; timestamp := 7 |}]> ∅)
        = ({| res_status := 200; res_body := Document doc |},
           <[cacheKey (Some "lenses") None None :=
               {| cached_lenses := [Marked.entry]; timestamp := 7 |}]> ∅).
Proof.
  apply (listed_ids_resolve (Some 300000%Z) (fun _ => Ok [Marked.entry]) 5 7
           (Some "lenses") None None ∅).
  reflexivity.
Defined.

(** ** The working copy *)

Lemma split_on_nonempty (sep : ascii) (s : string) : split_on sep s <> [].
Proof.
  destruct s as [|c rest]; cbn; [discriminate|].
  destruct (Ascii.eqb c sep); [discriminate|].
  destruct (split_on sep rest); discriminate.
Qed.

Lemma split_on_app (sep : ascii) (a rest : string) :
  split_on sep (a +:+ String sep rest) = split_on sep a ++ split_on sep rest.
Proof.
  induction a as [|c a IH].
  - change (EmptyString +:+ String sep rest) with (String sep rest).
    cbn [split_on]. rewrite Ascii.eqb_refl. reflexivity.
  - change (String c a +:+ String sep rest) with (String c (a +:+ String sep rest)).
    cbn [split_on]. rewrite IH.
    destruct (Ascii.eqb c sep); [reflexivity|].
    pose proof (split_on_nonempty sep a) as Hne.
    destruct (split_on sep a) as [|piece pieces]; [contradiction|reflexivity].
Qed.

Lemma split_on_without (sep : ascii) (s : string) :
  without sep s = true -> split_on sep s = [s].
Proof.
  induction s as [|c rest IH]; [reflexivity|]. cbn [without split_on].
  intros [Hc Hrest]%andb_prop. apply negb_true_iff in Hc. rewrite Hc, (IH Hrest).
  reflexivity.
Qed.

Lemma pop_last_segment (a seg : string) :
  without "/"%char seg = true ->
  pop (split_on "/"%char (a +:+ "/" +:+ seg)) = seg.
Proof.
  intros Hseg. change ("/" +:+ seg) with (String "/"%char seg).
  rewrite split_on_app, (split_on_without _ _ Hseg). unfold pop.
  apply List.last_last.
Qed.

Lemma without_app (c : ascii) (s t : string) :
  without c (s +:+ t) = without c s && without c t.
Proof.
  induction s as [|c' s IH]; [reflexivity|].
  change (String c' s +:+ t) with (String c' (s +:+ t)). cbn [without].
  rewrite IH, andb_assoc. reflexivity.
Qed.

Lemma remove_first_git (x y : string) :
  without "."%char x = true -> remove_first ".git" (x +:+ ".git" +:+ y) = x +:+ y.
Proof.
  induction x as [|c x IH]; intros Hx.
  - unfold String.append. destruct y; reflexivity.
  - cbn [without] in Hx. apply andb_prop in Hx as [Hc Hx].
    change (String c x +:+ ".git" +:+ y) with (String c (x +:+ ".git" +:+ y)).
    change (String c x +:+ y) with (String c (x +:+ y)).
    cbn [remove_first String.prefix].
    destruct (ascii_dec "."%char c) as [<-|Hne]; [discriminate|].
    rewrite (IH Hx). reflexivity.
Qed.

(** The working copy of a repository depends on the last segment of its
    URL only, so two repositories whose URLs end in the same segment
    (the same name under two owners, say) get the same directory. *)
Theorem getRepoLocalPath_last_segment (h : host) (LENS_REPOS_TEMP_DIR : option string)
    (a b seg : string) (tempDir : option string) :
  without "/"%char seg = true ->
  getRepoLocalPath h LENS_REPOS_TEMP_DIR (a +:+ "/" +:+ seg) tempDir
  = getRepoLocalPath h LENS_REPOS_TEMP_DIR (b +:+ "/" +:+ seg) tempDir.
Proof.
  intros Hseg. unfold getRepoLocalPath, repoName.
  rewrite !(pop_last_segment _ _ Hseg). reflexivity.
Qed.

Lemma getRepoLocalPath_last_segment_witness :
  getRepoLocalPath Sibling.h None ("https://host/alice" +:+ "/" +:+ "lenses.git") None
  = getRepoLocalPath Sibling.h None ("https://host/bob" +:+ "/" +:+ "lenses.git") None.
Proof.
  apply (getRepoLocalPath_last_segment Sibling.h None "https://host/alice"
           "https://host/bob" "lenses.git" None).
  reflexivity.
Defined.

(** The directory is the base directory joined with the last segment of
    the URL less its first [.git]: for a segment [x.git] with no dot in
    [x] that is [x], and for a segment [x.gity] it is [xy], the [.git]
    being cut wherever it comes first, not only at the end. *)
Theorem getRepoLocalPath_name (h : host) (LENS_REPOS_TEMP_DIR : option string)
    (a x y : string) (tempDir : option string) :
  without "/"%char x = true -> without "."%char x = true ->
  without "/"%char y = true ->
  getRepoLocalPath h LENS_REPOS_TEMP_DIR (a +:+ "/" +:+ x +:+ ".git" +:+ y) tempDir
  = path_join h
      (if path_truthy tempDir then template tempDir
       else if path_truthy LENS_REPOS_TEMP_DIR then template LENS_REPOS_TEMP_DIR
            else "/tmp/lens-repos")
      (x +:+ y).
Proof.
  intros Hx Hdot Hy. unfold getRepoLocalPath, repoName.
  rewrite pop_last_segment
    by (rewrite !without_app, Hx, Hy; reflexivity).
  rewrite (remove_first_git _ _ Hdot). f_equal.
  unfold or_else. destruct (path_truthy tempDir) eqn:Ht.
  - rewrite Ht. reflexivity.
  - destruct (path_truthy LENS_REPOS_TEMP_DIR); reflexivity.
Qed.

Lemma getRepoLocalPath_name_witness :
  getRepoLocalPath Sibling.h None
    ("https://host/owner" +:+ "/" +:+ "lens" +:+ ".git" +:+ "hub") None
  = path_join Sibling.h
      (if path_truthy None then template None
       else if path_truthy None then template None else "/tmp/lens-repos")
      ("lens" +:+ "hub").
Proof.
  apply (getRepoLocalPath_name Sibling.h None "https://host/owner" "lens" "hub" None);
    reflexivity.
Defined.

(** ** What the validator does not read *)

(** The validator reads [resourceType], [url], [name], [status] and
    [content] and nothing else: a write to any other field of a
    document, [id], [version] or [parameter] included, leaves its
    verdict and its messages as they were. *)
Theorem validateFHIRLens_frame (fields : list (string * value)) (k : string)
    (x : value) :
  ~ In k ["resourceType"; "url"; "name"; "status"; "content"] ->
  validateFHIRLens (VObj (define k x fields)) = validateFHIRLens (VObj fields).
Proof.
  intros Hk. unfold validateFHIRLens. simpl.
  rewrite !own_define_other by (intros E; apply Hk; rewrite <- E; simpl; tauto).
  reflexivity.
Qed.

Lemma validateFHIRLens_frame_witness :
  validateFHIRLens (VObj (define "version" (VNum 2) [("url", VStr "u")]))
  = validateFHIRLens (VObj [("url", VStr "u")]).
Proof.
  apply (validateFHIRLens_frame [("url", VStr "u")] "version" (VNum 2)).
  simpl. intros H. repeat destruct H as [H|H]; try discriminate H. exact H.
Defined.

(** ** The two routes together *)

(** From the same environment, cache and clock the two routes fail
    together: [GET /lenses] answers 500 exactly when [GET /lenses/:name]
    does, whatever the name, it answers 200 otherwise, and both leave
    the cache in the same state. *)
Theorem routes_fail_together (CACHE_TTL : option Z)
    (discover : string -> result (list lensEntry)) (now stored : Z)
    (GIT_REPO_URL GIT_BRANCH LENS_FILE_PATH : option string) (name : string)
    (lensCache : gmap string cache_entry) :
  let listed := listRoute CACHE_TTL discover now stored
                GIT_REPO_URL GIT_BRANCH LENS_FILE_PATH lensCache in
  let served := lensRoute CACHE_TTL discover now stored
               GIT_REPO_URL GIT_BRANCH LENS_FILE_PATH name lensCache in
  (res_status listed.1 = 500 <-> res_status served.1 = 500)
  /\ (res_status listed.1 = 200 \/ res_status listed.1 = 500)
  /\ listed.2 = served.2.
Proof.
  cbv zeta. unfold listRoute, lensRoute, getLensNames, getLensByName.
  destruct (getLenses CACHE_TTL discover now stored
              GIT_REPO_URL GIT_BRANCH LENS_FILE_PATH lensCache)
    as [[lenses|f] lensCache'] eqn:Hget.
  - destruct (List.find (named name) lenses); cbn;
      (split; [split; discriminate | split; [left; reflexivity | reflexivity]]).
  - assert (Hf : statusCode f <> Some 404).
    { unfold getLenses in Hget.
      destruct (negb (path_truthy GIT_REPO_URL)); [injection Hget as <- _; discriminate|].
      destruct (lensCache !! cacheKey GIT_REPO_URL GIT_BRANCH LENS_FILE_PATH) as [cached|].
      - destruct (fresh CACHE_TTL now (timestamp cached)); [discriminate|].
        destruct (discover (template GIT_REPO_URL)); [discriminate|].
        injection Hget as <- _. discriminate.
      - destruct (discover (template GIT_REPO_URL)); [discriminate|].
        injection Hget as <- _. discriminate. }
    destruct f; cbn in Hf |- *; try congruence;
      (split; [split; reflexivity | split; [right; reflexivity | reflexivity]]).
Qed.
